(** * Sparv: SBX statistics export and workdir inspection

    A shallow embedding of

    - [sparv/modules/stats_export/sbx_stats.py]: the annotator
      [conditional_best_complemgram] and the marker-driven installers
      [install_sbx_freq_list] / [uninstall_sbx_freq_list];
    - [sparv/core/dev.py]: [inspect_workdir_file];
    - the exporters of [sbx_stats.py], as the table of what each reads
      and writes;
    - [sparv/core/logger.py]: [ensure_logger_class] and the methods of
      [SparvLogger].

    Python strings are [string]; [str | None] is [option string]; the
    marker files of the working directory are a finite set of marker
    names; code that raises runs in a small state-and-exception monad. *)

From stdpp Require Import base gmap sets list strings.
From Stdlib Require Import Ascii.

(** ** The Python fragments the sources rely on *)

Module Py.

(** Truth value of a [str]: only the empty string is falsy. *)
Definition truthy (s : string) : bool :=
  match s with
  | EmptyString => false
  | String _ _ => true
  end.

(** Truth value of a [str | None]. *)
Definition truthy_opt (o : option string) : bool :=
  match o with
  | None => false
  | Some s => truthy s
  end.

(** [s.startswith(p)]. *)
Definition startswith (s p : string) : bool := String.prefix p s.

Definition is_slash (c : ascii) : bool := Ascii.eqb c "/"%char.

(** [s.rstrip("/")]: every trailing slash is dropped. *)
Fixpoint rstrip_slash (s : string) : string :=
  match s with
  | EmptyString => EmptyString
  | String c r =>
      let r' := rstrip_slash r in
      if is_slash c && negb (truthy r') then EmptyString else String c r'
  end.

(** [s[n:]]. *)
Fixpoint string_drop (n : nat) (s : string) : string :=
  match n, s with
  | O, _ => s
  | S n', String _ r => string_drop n' r
  | S _, EmptyString => EmptyString
  end.

(** [s.removeprefix(p)]. *)
Definition removeprefix (s p : string) : string :=
  if startswith s p then string_drop (String.length p) s else s.

(** ["/" in s]. *)
Fixpoint contains_slash (s : string) : bool :=
  match s with
  | EmptyString => false
  | String c r => is_slash c || contains_slash r
  end.

(** [s.split("/")]. *)
Fixpoint split_slash (s : string) : list string :=
  match s with
  | EmptyString => [EmptyString]
  | String c r =>
      if is_slash c then EmptyString :: split_slash r
      else match split_slash r with
           | h :: t => String c h :: t
           | [] => [String c EmptyString]
           end
  end.

(** [sep.join(l)] for [sep = "/"]. *)
Fixpoint join_slash (l : list string) : string :=
  match l with
  | [] => EmptyString
  | [x] => x
  | x :: t => x +:+ "/" +:+ join_slash t
  end.

(** [pathlib.PurePosixPath]: a root (empty, one slash, or two slashes
    when the text starts with exactly two) and the components, with
    empty and single-dot components dropped. *)
Record Path := mkPath { root : string; parts : list string }.

Definition path_root (s : string) : string :=
  match s with
  | String c0 r0 =>
      if is_slash c0 then
        match r0 with
        | String c1 r1 =>
            if is_slash c1 then
              match r1 with
              | String c2 _ => if is_slash c2 then "/" else "//"
              | EmptyString => "//"
              end
            else "/"
        | EmptyString => "/"
        end
      else ""
  | EmptyString => ""
  end.

Definition keep_part (x : string) : bool :=
  truthy x && negb (String.eqb x ".").

Definition path_of (s : string) : Path :=
  {| root := path_root s; parts := List.filter keep_part (split_slash s) |}.

(** [Path.name]: the last component, or the empty string. *)
Definition name (p : Path) : string := List.last (parts p) "".

(** [p / key]: an absolute [key] replaces [p]. *)
Definition joinpath (p : Path) (key : string) : Path :=
  if startswith key "/" then path_of key
  else {| root := root p; parts := parts p ++ parts (path_of key) |}.

(** [str(p)]. *)
Definition path_str (p : Path) : string :=
  match parts p with
  | [] => if truthy (root p) then root p else "."
  | _ => root p +:+ join_slash (parts p)
  end.

End Py.

(** ** sparv/modules/stats_export/sbx_stats.py *)

Module SbxStats.
Import Py.

(** *** conditional_best_complemgram *)

(** The body of the loop: the value appended for one token. *)
Definition suppress (complemgram sense_val : string) : string :=
  if truthy sense_val && negb (String.eqb sense_val "|") then ""
  else complemgram.

(** [complemgrams.read_attributes((complemgrams, sense))] reads the two
    annotations in lock step, one tuple per token. *)
Definition read_attributes (complemgrams sense : list string)
  : list (string * string) :=
  zip complemgrams sense.

(** The [for] loop, appending to [short_complemgrams]. *)
Definition conditional_loop (all_annotations : list (string * string))
  : list string :=
  fold_left
    (fun short_complemgrams '(complemgram, sense_val) =>
       short_complemgrams ++ [suppress complemgram sense_val])
    all_annotations [].

(** The value handed to [out_complemgrams.write]. *)
Definition conditional_best_complemgram (complemgrams sense : list string)
  : list string :=
  let all_annotations := read_attributes complemgrams sense in
  conditional_loop all_annotations.

(** *** Exceptions, the working directory, and code that may raise *)

(** [SparvErrorMessage] is the user-facing error of the pipeline; the
    transport helpers may raise it or any other exception. *)
Inductive exn :=
| SparvErrorMessage (message : string)
| OtherException (detail : string).

(** The calls into [sparv.api.util.install], with the arguments passed. *)
Inductive transport_call :=
| Install_svn (source_file svn_url : string) (remove_existing : bool)
| Install_path (source_path : string) (host : option string)
    (target_path : string)
| Uninstall_svn (svn_url : string)
| Uninstall_path (remote_path : Path) (host : option string).

(** What the installers can observe and change: the marker files
    present in the working directory, the transport calls issued so
    far, and the lines sent to the logger. *)
Record workdir := mkWorkdir {
  markers : gset string;
  calls : list transport_call;
  log : list string
}.

Inductive result (A : Type) :=
| Ok (a : A)
| Raise (e : exn).
Arguments Ok {A} a.
Arguments Raise {A} e.

Definition M (A : Type) : Type := workdir -> result A * workdir.

Definition ret {A} (a : A) : M A := fun w => (Ok a, w).

Definition raise {A} (e : exn) : M A := fun w => (Raise e, w).

Definition bind {A B} (m : M A) (k : A -> M B) : M B :=
  fun w =>
    match m w with
    | (Ok a, w') => k a w'
    | (Raise e, w') => (Raise e, w')
    end.

Notation "m ;; k" := (bind m (fun _ => k))
  (at level 100, k at level 200, right associativity).

(** Modelled from the spec: [OutputMarker.write] of [sparv.api] is not
    in the sources at hand; a marker is a flag (file present or absent)
    scoped to one name, and writing it makes it present. *)
Definition marker_write (marker : string) : M unit :=
  fun w => (Ok tt, mkWorkdir ({[marker]} ∪ markers w) (calls w) (log w)).

(** Modelled from the spec: [MarkerOptional.remove] of [sparv.api] is
    not in the sources at hand; the marker is removed if present. *)
Definition marker_remove (marker : string) : M unit :=
  fun w => (Ok tt, mkWorkdir (markers w ∖ {[marker]}) (calls w) (log w)).

(** [logger.info]. *)
Definition logger_info (line : string) : M unit :=
  fun w => (Ok tt, mkWorkdir (markers w) (calls w) (log w ++ [line])).

(** Modelled from the spec: [util.install.install_svn] is not in the
    sources at hand. The [svn+] prefix of the host is the reserved
    scheme prefix that selects the version-control transport; the
    artifact is committed at the URL that follows it. *)
Definition svn_commit_url (svn_url : string) : string :=
  removeprefix svn_url "svn+".

Section Transport.

(** The outcome of a transport call is not decided by this module:
    given the calls already made, a call succeeds or raises. *)
Variable transport : list transport_call -> transport_call -> option exn.

Definition call_transport (c : transport_call) : M unit :=
  fun w =>
    let w' := mkWorkdir (markers w) (calls w ++ [c]) (log w) in
    match transport (calls w) c with
    | None => (Ok tt, w')
    | Some e => (Raise e, w')
    end.

Definition install_svn (source_file svn_url : string)
    (remove_existing : bool) : M unit :=
  call_transport (Install_svn source_file svn_url remove_existing).

Definition install_path (source_path : string) (host : option string)
    (target_path : string) : M unit :=
  call_transport (Install_path source_path host target_path).

Definition uninstall_svn (svn_url : string) : M unit :=
  call_transport (Uninstall_svn svn_url).

Definition uninstall_path (remote_path : Path) (host : option string)
    : M unit :=
  call_transport (Uninstall_path remote_path host).

(** [host and host.startswith("svn+")]. *)
Definition is_svn_host (host : option string) : bool :=
  match host with
  | Some h => truthy h && startswith h "svn+"
  | None => false
  end.

(** *** install_sbx_freq_list *)

Definition install_sbx_freq_list (freq_list : string)
    (marker uninstall_marker : string)
    (host : option string) (target_dir : string) : M unit :=
  if negb (truthy target_dir) then
    raise (SparvErrorMessage "Target directory must be specified.")
  else
    (if is_svn_host host then
       let url := rstrip_slash (default "" host) +:+ "/"
                  +:+ name (path_of freq_list) in
       install_svn freq_list url true
     else
       install_path freq_list host target_dir) ;;
    marker_remove uninstall_marker ;;
    marker_write marker.

(** *** uninstall_sbx_freq_list *)

Definition uninstall_file_name (corpus_id compression : string)
    (use_compression : bool) : string :=
  ("stats_" +:+ corpus_id +:+ ".csv")
  +:+ (if use_compression then "." +:+ compression else "").

Definition uninstall_sbx_freq_list (corpus_id : string)
    (marker install_marker : string)
    (host : option string) (remote_dir : string)
    (compression : string) (use_compression : bool) : M unit :=
  if negb (truthy remote_dir) then
    raise (SparvErrorMessage "Remote directory must be specified.")
  else
    let uninstall_file :=
      uninstall_file_name corpus_id compression use_compression in
    (if is_svn_host host then
       let url := rstrip_slash (default "" host) +:+ "/"
                  +:+ uninstall_file in
       uninstall_svn url
     else
       let remote_dir := if truthy remote_dir then remote_dir else "" in
       let remote_file := joinpath (path_of remote_dir) uninstall_file in
       logger_info
         ("Removing SBX word frequency file "
          +:+ (if truthy_opt host then default "" host +:+ ":" else "")
          +:+ path_str remote_file) ;;
       uninstall_path remote_file host) ;;
    marker_remove install_marker ;;
    marker_write marker.

(** *** The registered variants *)

Definition install_marker_name (suffix : string) : string :=
  "stats_export.install_sbx_freq_list" +:+ suffix +:+ "_marker".

Definition uninstall_marker_name (suffix : string) : string :=
  "stats_export.uninstall_sbx_freq_list" +:+ suffix +:+ "_marker".

Record inst := mkInst {
  inst_suffix : string;
  inst_dir_suffix : option string;
  inst_extension : string
}.

Definition installers : list inst :=
  [ mkInst "" None "";
    mkInst "_compressed" (Some "") ".[stats_export.compression]";
    mkInst "_date" None "";
    mkInst "_date_compressed" (Some "") ".[stats_export.compression]";
    mkInst "_simple" None "";
    mkInst "_simple_compressed" (Some "_simple")
      ".[stats_export.compression]";
    mkInst "_fsv" None "";
    mkInst "_fsv_compressed" (Some "_fsv") ".[stats_export.compression]";
    mkInst "_1800" None "";
    mkInst "_1800_compressed" (Some "_1800")
      ".[stats_export.compression]" ].

(** The [ExportInput] template of a variant; the pipeline resolves it
    to the path passed as [freq_list]. *)
Definition freq_list_template (i : inst) : string :=
  "stats_export.frequency_list_sbx"
  +:+ default (inst_suffix i) (inst_dir_suffix i)
  +:+ "/stats_[metadata.id].csv" +:+ inst_extension i.

(** The installer registered for a variant: the markers are the
    defaults bound when the function is defined. *)
Definition installer (i : inst) (freq_list : string)
    (host : option string) (target_dir : string) : M unit :=
  install_sbx_freq_list freq_list
    (install_marker_name (inst_suffix i))
    (uninstall_marker_name (inst_suffix i))
    host target_dir.

Record uninst := mkUninst {
  uninst_suffix : string;
  uninst_compressed : bool
}.

Definition uninstallers : list uninst :=
  [ mkUninst "" false;
    mkUninst "_compressed" true;
    mkUninst "_date" false;
    mkUninst "_date_compressed" true;
    mkUninst "_simple" false;
    mkUninst "_simple_compressed" true;
    mkUninst "_fsv" false;
    mkUninst "_fsv_compressed" true;
    mkUninst "_1800" false;
    mkUninst "_1800_compressed" true ].

Definition uninstaller (u : uninst) (corpus_id : string)
    (host : option string) (remote_dir : string)
    (compression : string) : M unit :=
  uninstall_sbx_freq_list corpus_id
    (uninstall_marker_name (uninst_suffix u))
    (install_marker_name (uninst_suffix u))
    host remote_dir compression (uninst_compressed u).

End Transport.

End SbxStats.

(** ** sparv/core/dev.py *)

Module Dev.
Import Py.

(** What [console.print] is called with. *)
Inductive message :=
| File_does_not_exist (filename : string)
| Failed_with_compression (compression : string)
| Failed_try_option
| Failed_with_config_compression (compression : string).

(** The observable steps of an inspection: a call of [read_and_print]
    under the value [io.compression] has at that moment, with its
    outcome ([false]: it raised); loading the configuration; a message
    on the console. *)
Inductive event :=
| Read_and_print (io_compression : string) (ok : bool)
| Load_config
| Console_print (m : message).

(** The module-level setting [io.compression] and what happened so far. *)
Record state := mkState {
  io_compression : string;
  trace : list event
}.

Definition emit (e : event) (s : state) : state :=
  mkState (io_compression s) (trace s ++ [e]).

Definition set_io_compression (c : string) (s : state) : state :=
  mkState c (trace s).

(** The read events of a trace, in order. *)
Definition reads (t : list event) : list (string * bool) :=
  omap (fun e => match e with
                 | Read_and_print c ok => Some (c, ok)
                 | _ => None
                 end) t.

(** An exception that leaves the function. *)
Inductive exception :=
| Exception (description : string).

(** How a call ends: it returns a value or it raises. *)
Inductive outcome (A : Type) :=
| Returns (a : A)
| Raises (e : exception).
Arguments Returns {A} a.
Arguments Raises {A} e.

(** The console messages of a trace, in order. *)
Definition console (t : list event) : list message :=
  omap (fun e => match e with
                 | Console_print m => Some m
                 | _ => None
                 end) t.

Section Inspect.

(** [Path(filename).is_file()]. *)
Variable is_file : string -> bool.

(** Whether [read_and_print] returns normally for a file under a value
    of [io.compression], after the steps already taken. *)
Variable read_succeeds : list event -> string -> string -> bool.

(** What [snake_utils.load_config({})] does: it returns whether the
    configuration is missing, or it raises. The call sits in the
    [except] branch, outside any [try], so what it raises leaves
    [inspect_workdir_file]. *)
Variable load_config : outcome bool.

(** What [config.get("sparv.compression")] does once the configuration
    is loaded: it returns the configured value, or it raises; it is not
    inside a [try] either. *)
Variable config_get : outcome (option string).

Definition read_and_print (filename : string) (s : state) : bool * state :=
  let ok := read_succeeds (trace s) filename (io_compression s) in
  (ok, emit (Read_and_print (io_compression s) ok) s).

Definition inspect_workdir_file (filename : string)
    (compression : option string) (s : state) : outcome bool * state :=
  if negb (is_file filename) then
    (Returns false, emit (Console_print (File_does_not_exist filename)) s)
  else
    let s :=
      if truthy_opt compression
      then set_io_compression (default "" compression) s
      else s in
    let '(ok, s) := read_and_print filename s in
    if ok then (Returns true, s)
    else if truthy_opt compression then
      (Returns false,
       emit (Console_print (Failed_with_compression (default "" compression)))
         s)
    else
      let s := emit Load_config s in
      match load_config with
      | Raises e => (Raises e, s)
      | Returns config_missing =>
          match config_get with
          | Raises e => (Raises e, s)
          | Returns compression =>
              if config_missing || negb (truthy_opt compression) then
                (Returns false, emit (Console_print Failed_try_option) s)
              else
                let s := set_io_compression (default "" compression) s in
                let '(ok, s) := read_and_print filename s in
                if ok then (Returns true, s)
                else
                  (Returns false,
                   emit (Console_print
                           (Failed_with_config_compression
                              (default "" compression)))
                     s)
          end
      end.

(** The reading of "the first read attempt is made using no codec" that
    asks least: when the first read happens, [io.compression] still has
    the value it had on entry, the operation having applied no codec. *)
Definition first_read_applies_no_codec (filename : string)
    (compression : option string) (s : state) : Prop :=
  exists ok rest,
    trace (inspect_workdir_file filename compression s).2
    = trace s ++ Read_and_print (io_compression s) ok :: rest.

End Inspect.

End Dev.

(** ** The exporters of sparv/modules/stats_export/sbx_stats.py *)

Module SbxExporters.
Import SbxStats.

(** What an exporter does: [freq_list] over named annotation columns, or
    [compress] of a statistics file. *)
Inductive exporter_body :=
| Freq_list (columns : list (string * string))
| Compress (stats_file : string).

(** One [@exporter] function: its name, the template of the file it
    writes ([out] or [out_file]) and its body. Each column is the
    annotation read and the header it is exported under. *)
Record exporter := mkExporter {
  exporter_name : string;
  exporter_out : string;
  exporter_body_of : exporter_body
}.

Definition swedish_columns : list (string * string) :=
  [ ("<token:word>", "token");
    ("<token:msd>", "POS");
    ("<token>:stats_export.baseform_first", "lemma");
    ("<token>:stats_export.sense_best", "SALDO sense");
    ("<token>:stats_export.lemgram_first", "lemgram");
    ("<token>:stats_export.complemgram_best_cond", "compound") ].

Definition compressed_out (stats_file : string) : string :=
  stats_file +:+ ".[stats_export.compression]".

Definition exporters : list exporter :=
  [ mkExporter "sbx_freq_list"
      "stats_export.frequency_list_sbx/stats_[metadata.id].csv"
      (Freq_list swedish_columns);
    mkExporter "sbx_freq_list_compressed"
      "stats_export.frequency_list_sbx/stats_[metadata.id].csv.[stats_export.compression]"
      (Compress "stats_export.frequency_list_sbx/stats_[metadata.id].csv");
    mkExporter "sbx_freq_list_date"
      "stats_export.frequency_list_sbx_date/stats_[metadata.id].csv"
      (Freq_list
         (swedish_columns
          ++ [("[dateformat.out_annotation]:dateformat.date_pretty",
               "date")]));
    mkExporter "sbx_freq_list_date_compressed"
      "stats_export.frequency_list_sbx_date/stats_[metadata.id].csv.[stats_export.compression]"
      (Compress
         "stats_export.frequency_list_sbx_date/stats_[metadata.id].csv");
    mkExporter "sbx_freq_list_simple_swe"
      "stats_export.frequency_list_sbx_simple/stats_[metadata.id].csv"
      (Freq_list
         [ ("<token:word>", "token"); ("<token:pos>", "POS");
           ("<token>:stats_export.baseform_first", "lemma") ]);
    mkExporter "sbx_freq_list_simple_swe_compressed"
      "stats_export.frequency_list_sbx_simple/stats_[metadata.id].csv.[stats_export.compression]"
      (Compress
         "stats_export.frequency_list_sbx_simple/stats_[metadata.id].csv");
    mkExporter "sbx_freq_list_simple"
      "stats_export.frequency_list_sbx_simple/stats_[metadata.id].csv"
      (Freq_list
         [ ("<token:word>", "token"); ("<token:pos>", "POS");
           ("<token:baseform>", "lemma") ]);
    mkExporter "sbx_freq_list_simple_compressed"
      "stats_export.frequency_list_sbx_simple/stats_[metadata.id].csv.[stats_export.compression]"
      (Compress
         "stats_export.frequency_list_sbx_simple/stats_[metadata.id].csv");
    mkExporter "sbx_freq_list_1800"
      "stats_export.frequency_list_sbx_1800/stats_[metadata.id].csv"
      (Freq_list
         [ ("<token:word>", "token"); ("<token:msd>", "POS");
           ("<token>:stats_export.baseform_first", "lemma");
           ("<token>:hist.sense", "SALDO sense");
           ("<token>:stats_export.lemgram_first", "lemgram");
           ("<token>:stats_export.complemgram_best_cond", "compound") ]);
    mkExporter "sbx_freq_list_1800_compressed"
      "stats_export.frequency_list_sbx_1800/stats_[metadata.id].csv.[stats_export.compression]"
      (Compress
         "stats_export.frequency_list_sbx_1800/stats_[metadata.id].csv");
    mkExporter "sbx_freq_list_fsv"
      "stats_export.frequency_list_sbx_fsv/stats_[metadata.id].csv"
      (Freq_list
         [ ("<token:word>", "token"); ("<token:baseform>", "lemma");
           ("<token:lemgram>", "lemgram") ]);
    mkExporter "sbx_freq_list_fsv_compressed"
      "stats_export.frequency_list_sbx_fsv/stats_[metadata.id].csv.[stats_export.compression]"
      (Compress
         "stats_export.frequency_list_sbx_fsv/stats_[metadata.id].csv") ].

(** The templates some exporter writes. *)
Definition exported : list string := map exporter_out exporters.

(** Whether an exporter that compresses writes its input's template
    followed by the compression extension, and some exporter in the
    list writes that input. *)
Definition compress_chain_ok (e : exporter) : bool :=
  match exporter_body_of e with
  | Freq_list _ => true
  | Compress stats_file =>
      String.eqb (exporter_out e) (compressed_out stats_file)
      && bool_decide (stats_file ∈ exported)
  end.

End SbxExporters.

(** ** packages/sparv-api/src/sparv/core/logger.py *)

Module Logger.

(** The classes a [logging] module can hold as its logger class:
    [logging.Logger], [SparvLogger], and classes derived from either. *)
Inductive cls :=
| Logger_class
| SparvLogger_class
| Derived (base : cls) (name : string).

(** [issubclass(c, SparvLogger)]. *)
Fixpoint issubclass_SparvLogger (c : cls) : bool :=
  match c with
  | Logger_class => false
  | SparvLogger_class => true
  | Derived base _ => issubclass_SparvLogger base
  end.

Definition INTERNAL : Z := 100.
Definition PROGRESS : Z := 90.
Definition FINAL : Z := 80.

(** The state of the [logging] module that [ensure_logger_class]
    touches: the logger class and the two level-name tables. *)
Record logging := mkLogging {
  loggerClass : cls;
  levelToName : gmap Z string;
  nameToLevel : gmap string Z
}.

(** [logging.setLoggerClass]. *)
Definition setLoggerClass (klass : cls) (l : logging) : logging :=
  mkLogging klass (levelToName l) (nameToLevel l).

(** [logging.addLevelName]: both tables are updated. *)
Definition addLevelName (level : Z) (levelName : string) (l : logging)
  : logging :=
  mkLogging (loggerClass l)
    (<[level := levelName]> (levelToName l))
    (<[levelName := level]> (nameToLevel l)).

Definition ensure_logger_class (l : logging) : logging :=
  let l :=
    if negb (issubclass_SparvLogger (loggerClass l))
    then setLoggerClass SparvLogger_class l
    else l in
  let l := addLevelName INTERNAL "INTERNAL" l in
  let l := addLevelName PROGRESS "PROGRESS" l in
  addLevelName FINAL "FINAL" l.

(** [CurrentProgress]: the file and job being processed. *)
Record CurrentProgress := mkCurrentProgress {
  current_file : option string;
  current_job : option string
}.

(** The [extra] dictionary of a record. *)
Inductive extra :=
| Progress_extra (progress advance total : option Z)
    (job file : option string)
| Export_dirs_extra (export_dirs : list string).

(** A call of [self._log(level, msg, (), extra=...)]. *)
Record log_call := mkLogCall {
  log_level : Z;
  log_msg : string;
  log_extra : extra
}.

Section Methods.

(** [self.isEnabledFor], decided by [logging.Logger]. *)
Variable isEnabledFor : Z -> bool.

Definition progress (current : CurrentProgress)
    (progress advance total : option Z) (logged : list log_call)
  : list log_call :=
  if isEnabledFor INTERNAL then
    logged ++ [mkLogCall INTERNAL "progress"
                 (Progress_extra progress advance total
                    (current_job current) (current_file current))]
  else logged.

Definition export_dirs (dirs : list string) (logged : list log_call)
  : list log_call :=
  if isEnabledFor INTERNAL then
    logged ++ [mkLogCall INTERNAL "export_dirs" (Export_dirs_extra dirs)]
  else logged.

End Methods.

End Logger.

(** * Properties *)

Import Py SbxStats Dev.

(** Closes the routine clauses of one path through the inspection. *)
Ltac inspect_case :=
  simpl; repeat split; simpl; try done; try lia;
  try (by intros [? | ?]);
  try (intros _ _; eexists; split; reflexivity).

(** The clauses about the configuration step on one path: the outcomes
    of the load and of the lookup are those of the path at hand. *)
Ltac inspect_config :=
  split; [reflexivity|];
  split; [intros; simplify_eq; try (split; reflexivity)|];
  split; [intros; simplify_eq; try (split; reflexivity)|];
  intros; simplify_eq;
  (split;
   [ intros [? | ?]; simplify_eq; try congruence; try (split; reflexivity)
   | intros; simplify_eq; try congruence;
     try (eexists; split; reflexivity) ]).

(** ** Python fragments *)

Lemma truthy_true_iff (s : string) : truthy s = true <-> s <> "".
Proof. destruct s; simpl; split; intros; congruence. Qed.

Example rstrip_slash_host :
  rstrip_slash "svn+https://x/repo//" = "svn+https://x/repo".
Proof. reflexivity. Qed.

Example rstrip_slash_inner : rstrip_slash "a//b/" = "a//b".
Proof. reflexivity. Qed.

Example name_of_export_path :
  name (path_of "export/stats_export.frequency_list_sbx/stats_X.csv")
  = "stats_X.csv".
Proof. reflexivity. Qed.

Example path_of_normalises :
  path_of "/var/./www//" = mkPath "/" ["var"; "www"].
Proof. reflexivity. Qed.

Example joinpath_remote_file :
  path_str (joinpath (path_of "/var/www/") "stats_X.csv.gz")
  = "/var/www/stats_X.csv.gz".
Proof. reflexivity. Qed.

(** ** conditional_best_complemgram *)

Example conditional_best_complemgram_run :
  conditional_best_complemgram ["a+b"; "c+d"; "e"] ["|"; "sense..1"; ""]
  = ["a+b"; ""; "e"].
Proof. reflexivity. Qed.

Lemma conditional_loop_acc (l : list (string * string)) (acc : list string) :
  fold_left
    (fun short_complemgrams '(complemgram, sense_val) =>
       short_complemgrams ++ [suppress complemgram sense_val]) l acc
  = acc ++ map (fun p => suppress p.1 p.2) l.
Proof.
  revert acc. induction l as [|[c sv] l IH]; intros acc; simpl.
  - by rewrite app_nil_r.
  - rewrite IH. by rewrite <- app_assoc.
Qed.

Lemma conditional_loop_map (l : list (string * string)) :
  conditional_loop l = map (fun p => suppress p.1 p.2) l.
Proof. unfold conditional_loop. by rewrite conditional_loop_acc. Qed.

Lemma conditional_lookup (complemgrams sense : list string) (i : nat) :
  conditional_best_complemgram complemgrams sense !! i
  = match complemgrams !! i, sense !! i with
    | Some c, Some sv => Some (suppress c sv)
    | _, _ => None
    end.
Proof.
  unfold conditional_best_complemgram, read_attributes.
  rewrite conditional_loop_map, list_lookup_fmap.
  revert sense i. induction complemgrams as [|c cs IH]; intros [|sv ss] [|i];
    simpl; try done.
  by destruct (cs !! i).
Qed.


Lemma suppress_cases (c sv : string) :
  (sv <> "" -> sv <> "|" -> suppress c sv = "")
  /\ (sv = "" \/ sv = "|" -> suppress c sv = c).
Proof.
  unfold suppress. split.
  - intros Hne Hbar. apply truthy_true_iff in Hne. rewrite Hne.
    apply String.eqb_neq in Hbar. by rewrite Hbar.
  - by intros [-> | ->].
Qed.

(** C5: at every token position that is processed, the value written is
    the empty string when the sense value at that position is non-empty
    and is not the sentinel "|", and is the complemgram at that position,
    unchanged, otherwise; so a value survives an empty sense and the
    sentinel, and is blanked by the sense "x". *)
Theorem conditional_suppression (complemgrams sense : list string)
    (i : nat) (c sv : string) :
  complemgrams !! i = Some c ->
  sense !! i = Some sv ->
  let out := conditional_best_complemgram complemgrams sense in
  (sv <> "" -> sv <> "|" -> out !! i = Some "")
  /\ (sv = "" \/ sv = "|" -> out !! i = Some c)
  /\ suppress c "" = c
  /\ suppress c "|" = c
  /\ suppress c "x" = "".
Proof.
  intros Hc Hsv out. subst out.
  rewrite conditional_lookup, Hc, Hsv.
  destruct (suppress_cases c sv) as [Hblank Hkeep].
  repeat split; try reflexivity.
  - intros H1 H2. by rewrite Hblank.
  - intros H. by rewrite Hkeep.
Qed.

Lemma conditional_suppression_witness :
  let complemgrams := ["a+b"; "c+d"; "e"] in
  let sense := ["|"; "sense..1"; ""] in
  complemgrams !! 1 = Some "c+d"
  /\ sense !! 1 = Some "sense..1"
  /\ conditional_best_complemgram complemgrams sense !! 1 = Some "".
Proof.
  intros complemgrams sense.
  split; [reflexivity | split; [reflexivity |]].
  apply (conditional_suppression complemgrams sense 1 "c+d" "sense..1");
    [reflexivity | reflexivity | discriminate | discriminate].
Defined.

(** C10: on two streams of the same length the annotator writes one
    value per token: the output is as long as the complemgram stream and
    at each position holds that position's complemgram or the empty
    string. *)
Theorem conditional_one_value_per_token (complemgrams sense : list string) :
  length complemgrams = length sense ->
  let out := conditional_best_complemgram complemgrams sense in
  length out = length complemgrams
  /\ forall i c, complemgrams !! i = Some c ->
       out !! i = Some c \/ out !! i = Some "".
Proof.
  intros Hlen out. subst out. split.
  - unfold conditional_best_complemgram, read_attributes.
    rewrite conditional_loop_map, length_fmap, length_zip_with. lia.
  - intros i c Hc. rewrite conditional_lookup, Hc.
    destruct (sense !! i) as [sv|] eqn:Hsv.
    + unfold suppress. destruct (_ && _); auto.
    + apply lookup_ge_None in Hsv. apply lookup_lt_Some in Hc. lia.
Qed.

Lemma conditional_one_value_per_token_witness :
  let complemgrams := ["a+b"; "c+d"; "e"] in
  let sense := ["|"; "sense..1"; ""] in
  length complemgrams = length sense
  /\ length (conditional_best_complemgram complemgrams sense) = 3.
Proof.
  intros complemgrams sense. split; [reflexivity |].
  apply (conditional_one_value_per_token complemgrams sense). reflexivity.
Defined.

(** ** Strings and paths *)

Lemma app_String (c : ascii) (s t : string) :
  String c s +:+ t = String c (s +:+ t).
Proof. reflexivity. Qed.

Lemma app_empty_l (t : string) : "" +:+ t = t.
Proof. reflexivity. Qed.

Lemma string_app_assoc (s t u : string) : (s +:+ t) +:+ u = s +:+ t +:+ u.
Proof.
  induction s as [|c s IH]; [done|]. by rewrite !app_String, IH.
Qed.

Lemma contains_slash_app (s t : string) :
  contains_slash (s +:+ t) = contains_slash s || contains_slash t.
Proof.
  induction s as [|c s IH]; [done|].
  rewrite app_String. simpl. rewrite IH. by rewrite orb_assoc.
Qed.

Lemma split_slash_no_slash (s : string) :
  contains_slash s = false -> split_slash s = [s].
Proof.
  induction s as [|c s IH]; [done|]. simpl.
  destruct (is_slash c); [done|]. simpl. intros H. by rewrite IH.
Qed.

(** A name without a slash that is neither empty nor a single dot is a
    relative path of one component. *)
Lemma path_of_plain_name (s : string) :
  contains_slash s = false -> keep_part s = true ->
  path_of s = mkPath "" [s].
Proof.
  intros Hs Hk. unfold path_of. rewrite split_slash_no_slash by done.
  simpl. rewrite Hk. f_equal.
  destruct s as [|c s]; [done|]. simpl in *.
  by destruct (is_slash c).
Qed.

Lemma startswith_svn (h : string) :
  startswith h "svn+" = true -> exists t, h = "svn+" +:+ t.
Proof.
  unfold startswith. intros H%String.prefix_correct. simpl in H.
  do 4 (destruct h as [|? h]; simpl in H; [discriminate H|];
        injection H as -> H).
  by exists h.
Qed.

Lemma rstrip_slash_String (c : ascii) (s : string) :
  is_slash c = false -> rstrip_slash (String c s) = String c (rstrip_slash s).
Proof. intros H. simpl. by rewrite H. Qed.

Lemma startswith_app (p s : string) : startswith (p +:+ s) p = true.
Proof.
  unfold startswith. apply String.prefix_correct.
  induction p as [|c p IH].
  - by destruct s.
  - rewrite app_String. simpl. by rewrite IH.
Qed.

Lemma string_drop_app (p s : string) :
  string_drop (String.length p) (p +:+ s) = s.
Proof. induction p as [|c p IH]; [done|]. rewrite app_String. apply IH. Qed.

Lemma removeprefix_app (p s : string) : removeprefix (p +:+ s) p = s.
Proof.
  unfold removeprefix. by rewrite startswith_app, string_drop_app.
Qed.

(** The commit URL of the version-control transport: the reserved
    prefix of the host is dropped, its trailing slashes too, and the
    file name follows a single slash. *)
Lemma svn_commit_url_of_host (h n : string) :
  startswith h "svn+" = true ->
  svn_commit_url (rstrip_slash h +:+ "/" +:+ n)
  = string_drop 4 (rstrip_slash h) +:+ "/" +:+ n.
Proof.
  intros [t ->]%startswith_svn.
  rewrite !app_String, app_empty_l.
  rewrite !rstrip_slash_String by reflexivity.
  change (String "s" (String "v" (String "n" (String "+" (rstrip_slash t)))))
    with ("svn+" +:+ rstrip_slash t).
  unfold svn_commit_url.
  rewrite string_app_assoc, removeprefix_app.
  reflexivity.
Qed.

(** ** Markers *)

Lemma marker_names_differ (suffix : string) :
  install_marker_name suffix <> uninstall_marker_name suffix.
Proof.
  unfold install_marker_name, uninstall_marker_name.
  rewrite !app_String. discriminate.
Qed.

(** Writing one marker after removing the other leaves exactly the
    written one of the two. *)
Lemma markers_written_removed (m um : string) (X : gset string) :
  m <> um ->
  m ∈ ({[m]} ∪ (X ∖ {[um]}) : gset string)
  /\ um ∉ ({[m]} ∪ (X ∖ {[um]}) : gset string).
Proof.
  intros Hne. split.
  - apply elem_of_union. left. by apply elem_of_singleton.
  - rewrite elem_of_union, elem_of_singleton, elem_of_difference.
    rewrite elem_of_singleton. intros [Heq | [_ Hnot]]; congruence.
Qed.

(** ** install_sbx_freq_list and uninstall_sbx_freq_list, step by step *)

Section Runs.

Variable transport : list transport_call -> transport_call -> option exn.

(** The transport call an install issues. *)
Lemma install_run (freq_list marker uninstall_marker : string)
    (host : option string) (target_dir : string) (w : workdir) :
  target_dir <> "" ->
  exists c,
    c = (if is_svn_host host
         then Install_svn freq_list
                (rstrip_slash (default "" host) +:+ "/"
                 +:+ name (path_of freq_list)) true
         else Install_path freq_list host target_dir)
    /\ install_sbx_freq_list transport freq_list marker uninstall_marker
         host target_dir w
       = match transport (calls w) c with
         | None =>
             (Ok tt,
              mkWorkdir ({[marker]} ∪ (markers w ∖ {[uninstall_marker]}))
                (calls w ++ [c]) (log w))
         | Some e =>
             (Raise e, mkWorkdir (markers w) (calls w ++ [c]) (log w))
         end.
Proof.
  intros Htd%truthy_true_iff. eexists. split; [reflexivity|].
  unfold install_sbx_freq_list. rewrite Htd. simpl.
  unfold bind, install_svn, install_path, call_transport.
  destruct (is_svn_host host); by destruct (transport _ _).
Qed.

(** The transport call an uninstall issues, and the line it logs. *)
Lemma uninstall_run (corpus_id marker install_marker : string)
    (host : option string) (remote_dir compression : string)
    (use_compression : bool) (w : workdir) :
  remote_dir <> "" ->
  let file := uninstall_file_name corpus_id compression use_compression in
  let remote_file := joinpath (path_of remote_dir) file in
  exists c l,
    c = (if is_svn_host host
         then Uninstall_svn (rstrip_slash (default "" host) +:+ "/" +:+ file)
         else Uninstall_path remote_file host)
    /\ l = (if is_svn_host host then log w
            else log w ++
                 ["Removing SBX word frequency file "
                  +:+ (if truthy_opt host then default "" host +:+ ":"
                       else "")
                  +:+ path_str remote_file])
    /\ uninstall_sbx_freq_list transport corpus_id marker install_marker
         host remote_dir compression use_compression w
       = match transport (calls w) c with
         | None =>
             (Ok tt,
              mkWorkdir ({[marker]} ∪ (markers w ∖ {[install_marker]}))
                (calls w ++ [c]) l)
         | Some e => (Raise e, mkWorkdir (markers w) (calls w ++ [c]) l)
         end.
Proof.
  intros Hrd%truthy_true_iff file remote_file.
  do 2 eexists. split; [reflexivity|]. split; [reflexivity|].
  unfold uninstall_sbx_freq_list. rewrite Hrd. simpl.
  unfold bind, uninstall_svn, uninstall_path, logger_info, call_transport.
  fold file. fold remote_file.
  destruct (is_svn_host host); simpl; by destruct (transport _ _).
Qed.

End Runs.

(** ** The installers *)

(** C1: with an empty target directory the install raises the
    user-facing error "Target directory must be specified." and leaves
    the working directory as it was: no transport call is issued and the
    set of markers, holding the install-marker and the uninstall-marker
    or not, is unchanged. *)
Theorem install_requires_target_dir
    (transport : list transport_call -> transport_call -> option exn)
    (freq_list marker uninstall_marker : string) (host : option string)
    (w : workdir) :
  let r := install_sbx_freq_list transport freq_list marker uninstall_marker
             host "" w in
  r.1 = Raise (SparvErrorMessage "Target directory must be specified.")
  /\ calls r.2 = calls w
  /\ markers r.2 = markers w
  /\ r.2 = w.
Proof. by repeat split. Qed.

(** C8: with an empty remote directory the uninstall raises the
    user-facing error "Remote directory must be specified." before any
    removal: no transport call is issued and the markers are unchanged. *)
Theorem uninstall_requires_remote_dir
    (transport : list transport_call -> transport_call -> option exn)
    (corpus_id marker install_marker : string) (host : option string)
    (compression : string) (use_compression : bool) (w : workdir) :
  let r := uninstall_sbx_freq_list transport corpus_id marker install_marker
             host "" compression use_compression w in
  r.1 = Raise (SparvErrorMessage "Remote directory must be specified.")
  /\ calls r.2 = calls w
  /\ markers r.2 = markers w
  /\ r.2 = w.
Proof. by repeat split. Qed.

(** C3: when the transport call an install issues (SVN commit or path
    copy) raises, the install raises that error and the markers are as
    before: no install-marker is written and the uninstall-marker is not
    removed. *)
Theorem install_transport_failure_keeps_markers
    (transport : list transport_call -> transport_call -> option exn)
    (freq_list marker uninstall_marker : string) (host : option string)
    (target_dir : string) (w : workdir) (c : transport_call) (e : exn) :
  let r := install_sbx_freq_list transport freq_list marker uninstall_marker
             host target_dir w in
  calls r.2 = calls w ++ [c] ->
  transport (calls w) c = Some e ->
  r.1 = Raise e /\ markers r.2 = markers w.
Proof.
  intros r Hcalls Hfail. subst r.
  destruct (decide (target_dir = "")) as [-> | Htd].
  - simpl in Hcalls. apply (f_equal length) in Hcalls.
    rewrite length_app in Hcalls. simpl in Hcalls. lia.
  - destruct (install_run transport freq_list marker uninstall_marker
                host target_dir w Htd) as (c' & _ & Hrun).
    rewrite Hrun in *.
    assert (c' = c) as ->.
    { destruct (transport (calls w) c'); simpl in Hcalls;
        apply app_inv_head in Hcalls; congruence. }
    by rewrite Hfail.
Qed.

Lemma install_transport_failure_keeps_markers_witness :
  let transport := fun (_ : list transport_call) (_ : transport_call) =>
                     Some (OtherException "rsync failed") in
  let w := mkWorkdir {[uninstall_marker_name "_date"]} [] [] in
  let r := installer transport (mkInst "_date" None "")
             "export/stats_X.csv" (Some "host") "/var/www" w in
  calls r.2 = calls w ++ [Install_path "export/stats_X.csv" (Some "host")
                            "/var/www"]
  /\ r.1 = Raise (OtherException "rsync failed")
  /\ markers r.2 = {[uninstall_marker_name "_date"]}.
Proof.
  intros transport w r. split; [reflexivity|].
  apply (install_transport_failure_keeps_markers transport
           "export/stats_X.csv" (install_marker_name "_date")
           (uninstall_marker_name "_date") (Some "host") "/var/www" w
           (Install_path "export/stats_X.csv" (Some "host") "/var/www")
           (OtherException "rsync failed"));
    reflexivity.
Defined.

(** C2: after a successful install of a variant its install-marker is
    present and its uninstall-marker is absent; after a successful
    uninstall of a variant its uninstall-marker is present and its
    install-marker is absent. The two markers of a variant are thus never
    both present after a successful operation. *)
Theorem markers_exclusive_after_success
    (transport : list transport_call -> transport_call -> option exn) :
  (forall (i : inst) (freq_list : string) (host : option string)
          (target_dir : string) (w : workdir),
     let r := installer transport i freq_list host target_dir w in
     r.1 = Ok tt ->
     install_marker_name (inst_suffix i) ∈ markers r.2
     /\ uninstall_marker_name (inst_suffix i) ∉ markers r.2)
  /\ (forall (u : uninst) (corpus_id : string) (host : option string)
             (remote_dir compression : string) (w : workdir),
        let r := uninstaller transport u corpus_id host remote_dir
                   compression w in
        r.1 = Ok tt ->
        uninstall_marker_name (uninst_suffix u) ∈ markers r.2
        /\ install_marker_name (uninst_suffix u) ∉ markers r.2).
Proof.
  split.
  - intros i freq_list host target_dir w r Hok. subst r.
    unfold installer in *.
    destruct (decide (target_dir = "")) as [-> | Htd]; [discriminate Hok|].
    destruct (install_run transport freq_list
                (install_marker_name (inst_suffix i))
                (uninstall_marker_name (inst_suffix i))
                host target_dir w Htd) as (c & _ & Hrun).
    rewrite Hrun in *. destruct (transport (calls w) c); [discriminate Hok|].
    simpl. apply markers_written_removed, marker_names_differ.
  - intros u corpus_id host remote_dir compression w r Hok. subst r.
    unfold uninstaller in *.
    destruct (decide (remote_dir = "")) as [-> | Hrd]; [discriminate Hok|].
    destruct (uninstall_run transport corpus_id
                (uninstall_marker_name (uninst_suffix u))
                (install_marker_name (uninst_suffix u))
                host remote_dir compression (uninst_compressed u) w Hrd)
      as (c & l & _ & _ & Hrun).
    rewrite Hrun in *. destruct (transport (calls w) c); [discriminate Hok|].
    simpl. apply markers_written_removed.
    intros Heq. by apply (marker_names_differ (uninst_suffix u)).
Qed.

Lemma markers_exclusive_after_success_witness :
  let transport := fun (_ : list transport_call) (_ : transport_call) =>
                     @None exn in
  let w0 := mkWorkdir {[uninstall_marker_name "_compressed"]} [] [] in
  let r1 := installer transport
              (mkInst "_compressed" (Some "") ".[stats_export.compression]")
              "export/stats_X.csv.gz" (Some "host") "/var/www" w0 in
  let r2 := uninstaller transport (mkUninst "_compressed" true) "X"
              (Some "host") "/var/www" "gz" r1.2 in
  (r1.1 = Ok tt
   /\ install_marker_name "_compressed" ∈ markers r1.2
   /\ uninstall_marker_name "_compressed" ∉ markers r1.2)
  /\ (r2.1 = Ok tt
      /\ uninstall_marker_name "_compressed" ∈ markers r2.2
      /\ install_marker_name "_compressed" ∉ markers r2.2).
Proof.
  intros transport w0 r1 r2.
  destruct (markers_exclusive_after_success transport) as [Hinst Huninst].
  split.
  - split; [reflexivity|].
    apply (Hinst
             (mkInst "_compressed" (Some "") ".[stats_export.compression]")
             "export/stats_X.csv.gz" (Some "host") "/var/www" w0).
    reflexivity.
  - split; [reflexivity|].
    apply (Huninst (mkUninst "_compressed" true) "X" (Some "host")
             "/var/www" "gz" r1.2).
    reflexivity.
Defined.

Lemma is_svn_host_true (host : option string) :
  is_svn_host host = true <->
  exists h, host = Some h /\ startswith h "svn+" = true.
Proof.
  unfold is_svn_host. split.
  - destruct host as [h|]; [|done].
    intros [_ H]%andb_true_iff. by exists h.
  - intros (h & -> & H). rewrite H.
    apply startswith_svn in H as [t ->]. reflexivity.
Qed.

Lemma is_svn_host_false (host : option string) :
  (forall h, host = Some h -> startswith h "svn+" = false) ->
  is_svn_host host = false.
Proof.
  intros Hplain. destruct (is_svn_host host) eqn:E; [|done].
  apply is_svn_host_true in E as (h & -> & E).
  rewrite (Hplain h eq_refl) in E. discriminate E.
Qed.

Section Selection.

Variable transport : list transport_call -> transport_call -> option exn.
Variables (freq_list marker uninstall_marker target_dir : string).
Variable w : workdir.
Hypothesis target_dir_given : target_dir <> "".

(** An [svn+] host: one [install_svn] call, then the markers. *)
Lemma install_svn_branch (h : string) :
  startswith h "svn+" = true ->
  let url := rstrip_slash h +:+ "/" +:+ name (path_of freq_list) in
  let r := install_sbx_freq_list transport freq_list marker uninstall_marker
             (Some h) target_dir w in
  calls r.2 = calls w ++ [Install_svn freq_list url true]
  /\ (transport (calls w) (Install_svn freq_list url true) = None ->
      r.1 = Ok tt /\ marker ∈ markers r.2).
Proof.
  intros Hsvn url r. subst r.
  destruct (install_run transport freq_list marker uninstall_marker
              (Some h) target_dir w target_dir_given) as (c & Hc & Hrun).
  assert (is_svn_host (Some h) = true) as Hhost
    by (apply is_svn_host_true; eauto).
  rewrite Hhost in Hc. simpl in Hc. fold url in Hc. subst c.
  rewrite Hrun. split; [by destruct (transport _ _)|].
  intros ->. simpl. split; [done|].
  apply elem_of_union. left. by apply elem_of_singleton.
Qed.

(** Any other host: one [install_path] call. *)
Lemma install_path_branch (host : option string) :
  is_svn_host host = false ->
  let r := install_sbx_freq_list transport freq_list marker uninstall_marker
             host target_dir w in
  calls r.2 = calls w ++ [Install_path freq_list host target_dir].
Proof.
  intros Hhost r. subst r.
  destruct (install_run transport freq_list marker uninstall_marker
              host target_dir w target_dir_given) as (c & Hc & Hrun).
  rewrite Hhost in Hc. subst c. rewrite Hrun. by destruct (transport _ _).
Qed.

End Selection.

(** C4: with a non-empty target directory, a host that begins with
    "svn+" selects the version-control transport: the install calls
    [install_svn] on the artifact with the URL made of the host, without
    trailing slashes, a slash and the artifact's file name, and when that
    call succeeds the install succeeds and the install-marker is
    present; the commit goes to that URL without the reserved prefix.
    Any other host selects the path-copy transport. In the scenario of
    host "svn+https://x/repo", target directory "ignored" and artifact
    "stats_X.csv" the commit goes to "https://x/repo/stats_X.csv". *)
Theorem install_transport_selection
    (transport : list transport_call -> transport_call -> option exn)
    (marker uninstall_marker : string) (w : workdir) :
  (forall (freq_list : string) (host : option string) (target_dir : string),
     target_dir <> "" ->
     let r := install_sbx_freq_list transport freq_list marker
                uninstall_marker host target_dir w in
     (forall h, host = Some h -> startswith h "svn+" = true ->
        let file := name (path_of freq_list) in
        let url := rstrip_slash h +:+ "/" +:+ file in
        calls r.2 = calls w ++ [Install_svn freq_list url true]
        /\ svn_commit_url url
           = string_drop 4 (rstrip_slash h) +:+ "/" +:+ file
        /\ (transport (calls w) (Install_svn freq_list url true) = None ->
            r.1 = Ok tt /\ marker ∈ markers r.2))
     /\ ((forall h, host = Some h -> startswith h "svn+" = false) ->
         calls r.2 = calls w ++ [Install_path freq_list host target_dir]))
  /\ (let c := Install_svn "stats_X.csv" "svn+https://x/repo/stats_X.csv"
                 true in
      let r := install_sbx_freq_list transport "stats_X.csv" marker
                 uninstall_marker (Some "svn+https://x/repo") "ignored" w in
      calls r.2 = calls w ++ [c]
      /\ svn_commit_url "svn+https://x/repo/stats_X.csv"
         = "https://x/repo/stats_X.csv"
      /\ (transport (calls w) c = None ->
          r.1 = Ok tt /\ marker ∈ markers r.2)).
Proof.
  split.
  - intros freq_list host target_dir Htd r. subst r. split.
    + intros h -> Hsvn file url.
      destruct (install_svn_branch transport freq_list marker
                  uninstall_marker target_dir w Htd h Hsvn) as [Hcalls Hok].
      split; [exact Hcalls|].
      split; [by apply svn_commit_url_of_host | exact Hok].
    + intros Hplain%is_svn_host_false.
      by apply install_path_branch.
  - intros c r.
    assert (Htd : "ignored" <> "") by discriminate.
    destruct (install_svn_branch transport "stats_X.csv" marker
                uninstall_marker "ignored" w Htd "svn+https://x/repo"
                eq_refl) as [Hcalls Hok].
    split; [exact Hcalls|]. split; [reflexivity | exact Hok].
Qed.

Lemma install_transport_selection_witness :
  let transport := fun (_ : list transport_call) (_ : transport_call) =>
                     @None exn in
  let w := mkWorkdir ∅ [] [] in
  let marker := install_marker_name "" in
  let r := install_sbx_freq_list transport "export/stats_X.csv" marker
             (uninstall_marker_name "") (Some "svn+https://x/repo/")
             "ignored" w in
  "ignored" <> ""
  /\ calls r.2
     = [Install_svn "export/stats_X.csv" "svn+https://x/repo/stats_X.csv"
          true]
  /\ svn_commit_url "svn+https://x/repo/stats_X.csv"
     = "https://x/repo/stats_X.csv"
  /\ r.1 = Ok tt
  /\ marker ∈ markers r.2.
Proof.
  intros transport w marker r.
  assert (Htd : "ignored" <> "") by discriminate.
  split; [exact Htd|].
  destruct (proj1 (install_transport_selection transport marker
                     (uninstall_marker_name "") w)
              "export/stats_X.csv" (Some "svn+https://x/repo/") "ignored"
              Htd) as [Hsvn _].
  destruct (Hsvn "svn+https://x/repo/" eq_refl eq_refl)
    as (Hcalls & Hurl & Hok).
  split; [exact Hcalls|]. split; [exact Hurl|]. exact (Hok eq_refl).
Defined.

(** The file name an uninstall looks for, spelled out. *)
Lemma uninstall_file_name_spelled (corpus_id compression : string)
    (use_compression : bool) :
  uninstall_file_name corpus_id compression use_compression
  = "stats_" +:+ corpus_id +:+ ".csv"
    +:+ (if use_compression then "." +:+ compression else "").
Proof. unfold uninstall_file_name. by rewrite !string_app_assoc. Qed.

(** When neither the corpus identifier nor the codec identifier holds a
    slash, the file name is a single path component. *)
Lemma uninstall_file_name_plain (corpus_id compression : string)
    (use_compression : bool) :
  contains_slash corpus_id = false ->
  contains_slash compression = false ->
  let file := uninstall_file_name corpus_id compression use_compression in
  startswith file "/" = false /\ path_of file = mkPath "" [file].
Proof.
  intros Hid Hcodec file. subst file. split.
  - rewrite uninstall_file_name_spelled. reflexivity.
  - apply path_of_plain_name.
    + rewrite uninstall_file_name_spelled, !contains_slash_app, Hid.
      destruct use_compression; [|reflexivity].
      rewrite contains_slash_app, Hcodec. reflexivity.
    + rewrite uninstall_file_name_spelled. reflexivity.
Qed.

Lemma last_snoc (l : list string) (x d : string) : List.last (l ++ [x]) d = x.
Proof.
  induction l as [|y l IH]; [done|]. simpl.
  destruct (l ++ [x]) eqn:E; [by destruct l|]. exact IH.
Qed.

Lemma joinpath_parts (p : Path) (key : string) :
  startswith key "/" = false ->
  parts (joinpath p key) = parts p ++ parts (path_of key).
Proof. intros H. unfold joinpath. by rewrite H. Qed.

(** C6: with a non-empty remote directory, the file an uninstall removes
    is named "stats_" + corpus id + ".csv", followed by "." and the
    configured codec identifier exactly when the variant is compressed.
    With an "svn+" host the removal is one [uninstall_svn] call on the
    host, a slash and that name; with any other host it is one
    [uninstall_path] call on the remote directory joined with that name,
    whose last component is that name when neither identifier holds a
    slash. *)
Theorem uninstall_removes_expected_file
    (transport : list transport_call -> transport_call -> option exn)
    (corpus_id marker install_marker : string) (host : option string)
    (remote_dir compression : string) (use_compression : bool)
    (w : workdir) :
  remote_dir <> "" ->
  let file := "stats_" +:+ corpus_id +:+ ".csv"
              +:+ (if use_compression then "." +:+ compression else "") in
  let r := uninstall_sbx_freq_list transport corpus_id marker install_marker
             host remote_dir compression use_compression w in
  (forall h, host = Some h -> startswith h "svn+" = true ->
     calls r.2 = calls w ++ [Uninstall_svn (rstrip_slash h +:+ "/" +:+ file)])
  /\ ((forall h, host = Some h -> startswith h "svn+" = false) ->
      let remote_file := joinpath (path_of remote_dir) file in
      calls r.2 = calls w ++ [Uninstall_path remote_file host]
      /\ parts remote_file = parts (path_of remote_dir) ++ parts (path_of file)
      /\ (contains_slash corpus_id = false ->
          contains_slash compression = false ->
          name remote_file = file)).
Proof.
  intros Hrd file r. subst r.
  destruct (uninstall_run transport corpus_id marker install_marker host
              remote_dir compression use_compression w Hrd)
    as (c & l & Hc & _ & Hrun).
  rewrite uninstall_file_name_spelled in Hc. fold file in Hc.
  rewrite Hrun. split.
  - intros h -> Hsvn.
    assert (is_svn_host (Some h) = true) as Hhost
      by (apply is_svn_host_true; eauto).
    rewrite Hhost in Hc. subst c. by destruct (transport _ _).
  - intros Hhost%is_svn_host_false remote_file.
    rewrite Hhost in Hc. fold remote_file in Hc. subst c.
    split; [by destruct (transport _ _)|].
    assert (startswith file "/" = false) as Hrel by reflexivity.
    split; [by apply joinpath_parts|].
    intros Hid Hcodec. unfold name, remote_file.
    rewrite joinpath_parts by exact Hrel.
    destruct (uninstall_file_name_plain corpus_id compression
                use_compression Hid Hcodec) as [_ Hplain].
    rewrite uninstall_file_name_spelled in Hplain. fold file in Hplain.
    rewrite Hplain. simpl. apply last_snoc.
Qed.

Lemma uninstall_removes_expected_file_witness :
  let transport := fun (_ : list transport_call) (_ : transport_call) =>
                     @None exn in
  let w := mkWorkdir {[install_marker_name "_compressed"]} [] [] in
  let r := uninstaller transport (mkUninst "_compressed" true) "mycorpus"
             (Some "host") "/var/www/" "gz" w in
  "/var/www/" <> ""
  /\ calls r.2
     = [Uninstall_path (mkPath "/" ["var"; "www"; "stats_mycorpus.csv.gz"])
          (Some "host")]
  /\ name (joinpath (path_of "/var/www/") "stats_mycorpus.csv.gz")
     = "stats_mycorpus.csv.gz".
Proof.
  intros transport w r.
  assert (Hrd : "/var/www/" <> "") by discriminate.
  split; [exact Hrd|].
  destruct (uninstall_removes_expected_file transport "mycorpus"
              (uninstall_marker_name "_compressed")
              (install_marker_name "_compressed")
              (Some "host") "/var/www/" "gz" true w Hrd) as [_ Hpath].
  destruct Hpath as (Hcalls & _ & Hname).
  - intros h [= <-]. reflexivity.
  - split; [exact Hcalls|]. exact (Hname eq_refl eq_refl).
Defined.

(** ** inspect_workdir_file *)

(** A file that only reads under "bz2", no pinned codec, "bz2" in the
    configuration: two reads, the second one succeeds. *)
Example inspect_retry_run :
  inspect_workdir_file (fun _ => true) (fun _ _ c => String.eqb c "bz2")
    (Returns false) (Returns (Some "bz2")) "corpus/@text" None
    (mkState "gzip" [])
  = (Returns true,
     mkState "bz2"
       [Read_and_print "gzip" false; Load_config;
        Read_and_print "bz2" true]).
Proof. reflexivity. Qed.

(** The first read fails, no codec is pinned and loading the
    configuration raises: the exception leaves the function. *)
Example inspect_config_raises_run :
  inspect_workdir_file (fun _ => true) (fun _ _ _ => false)
    (Raises (Exception "config.yaml cannot be parsed")) (Returns None)
    "corpus/@text" None (mkState "gzip" [])
  = (Raises (Exception "config.yaml cannot be parsed"),
     mkState "gzip" [Read_and_print "gzip" false; Load_config]).
Proof. reflexivity. Qed.

Lemma reads_app (t u : list event) : reads (t ++ u) = reads t ++ reads u.
Proof. unfold reads. apply omap_app. Qed.

(** C9: when the file name does not denote an existing regular file,
    whatever the compression argument, the inspection returns false
    after one console message: no read is attempted, the configuration
    is not loaded and the compression setting is untouched. *)
Theorem inspect_missing_file
    (is_file : string -> bool)
    (read_succeeds : list event -> string -> string -> bool)
    (load_config : outcome bool) (config_get : outcome (option string))
    (filename : string) (compression : option string) (s : state) :
  is_file filename = false ->
  let r := inspect_workdir_file is_file read_succeeds load_config
             config_get filename compression s in
  r.1 = Returns false
  /\ trace r.2 = trace s ++ [Console_print (File_does_not_exist filename)]
  /\ reads (trace r.2) = reads (trace s)
  /\ (Load_config ∉ drop (length (trace s)) (trace r.2))
  /\ io_compression r.2 = io_compression s.
Proof.
  intros Hfile r. subst r. unfold inspect_workdir_file. rewrite Hfile. simpl.
  repeat split.
  - by rewrite reads_app, app_nil_r.
  - rewrite drop_app_length. by intros ?%list_elem_of_singleton.
Qed.

Lemma inspect_missing_file_witness :
  let is_file := fun _ : string => false in
  let read_succeeds := fun (_ : list event) (_ _ : string) => true in
  let s := mkState "gzip" [] in
  let r := inspect_workdir_file is_file read_succeeds (Returns false)
             (Returns (Some "bz2")) "corpus/@text" (Some "lzma") s in
  is_file "corpus/@text" = false
  /\ r.1 = Returns false
  /\ trace r.2 = [Console_print (File_does_not_exist "corpus/@text")]
  /\ io_compression r.2 = "gzip".
Proof.
  intros is_file read_succeeds s r. split; [reflexivity|].
  destruct (inspect_missing_file is_file read_succeeds (Returns false)
              (Returns (Some "bz2")) "corpus/@text" (Some "lzma") s eq_refl)
    as (Hres & Htrace & _ & _ & Hio).
  split; [exact Hres|]. split; [exact Htrace | exact Hio].
Defined.

(** C7, as the code has it: on an existing file the first read is made
    before the configuration is loaded, under the codec pinned by the
    caller when there is one and under the current setting of
    [io.compression] otherwise. If it succeeds the inspection returns
    true. If it fails and a codec was pinned, the inspection returns
    false without loading the configuration or reading again. If it
    fails and no codec was pinned, the configuration is loaded. When
    loading it, or looking up the configured codec, raises, that
    exception leaves the inspection and nothing more is read or
    printed. When both return, without a configuration or a configured
    codec the inspection returns false without reading again, and
    otherwise the read is retried once under the configured codec and
    its outcome is the result. At most two reads are made. *)
Theorem inspect_read_attempts
    (is_file : string -> bool)
    (read_succeeds : list event -> string -> string -> bool)
    (load_config : outcome bool) (config_get : outcome (option string))
    (filename : string) (compression : option string) (s : state) :
  is_file filename = true ->
  let r := inspect_workdir_file is_file read_succeeds load_config
             config_get filename compression s in
  let c1 := if truthy_opt compression then default "" compression
            else io_compression s in
  let ok1 := read_succeeds (trace s) filename c1 in
  exists rest,
    trace r.2 = trace s ++ Read_and_print c1 ok1 :: rest
    /\ length (reads rest) <= 1
    /\ (ok1 = true -> r.1 = Returns true /\ rest = [])
    /\ (ok1 = false -> truthy_opt compression = true ->
        r.1 = Returns false
        /\ rest = [Console_print
                     (Failed_with_compression (default "" compression))])
    /\ (ok1 = false -> truthy_opt compression = false ->
        head rest = Some Load_config
        /\ (forall e, load_config = Raises e ->
            r.1 = Raises e /\ rest = [Load_config])
        /\ (forall config_missing e,
              load_config = Returns config_missing ->
              config_get = Raises e ->
              r.1 = Raises e /\ rest = [Load_config])
        /\ (forall config_missing config_compression,
              load_config = Returns config_missing ->
              config_get = Returns config_compression ->
              (config_missing = true
               \/ truthy_opt config_compression = false ->
               r.1 = Returns false /\ reads rest = [])
              /\ (config_missing = false ->
                  truthy_opt config_compression = true ->
                  exists ok2,
                    reads rest = [(default "" config_compression, ok2)]
                    /\ r.1 = Returns ok2))).
Proof.
  intros Hfile r c1 ok1. subst r. unfold inspect_workdir_file.
  rewrite Hfile. simpl. unfold read_and_print.
  destruct (truthy_opt compression) eqn:Hpin; simpl; fold c1; fold ok1.
  - destruct ok1 eqn:Hok1; simpl.
    + exists []. inspect_case.
    + eexists. split; [by rewrite <- app_assoc|]. inspect_case.
  - destruct ok1 eqn:Hok1; simpl.
    + exists []. inspect_case.
    + assert (Hnot : forall P : Prop, false = true -> P) by done.
      destruct load_config as [config_missing | e]; simpl.
      2: { exists [Load_config]. split; [by rewrite <- !app_assoc|].
           split; [simpl; lia|]. split; [apply Hnot|].
           split; [intros _; apply Hnot|]. intros _ _. inspect_config. }
      destruct config_get as [config_compression | e]; simpl.
      2: { exists [Load_config]. split; [by rewrite <- !app_assoc|].
           split; [simpl; lia|]. split; [apply Hnot|].
           split; [intros _; apply Hnot|]. intros _ _. inspect_config. }
      destruct config_missing; simpl.
      { eexists. split; [by rewrite <- !app_assoc|].
        split; [simpl; lia|]. split; [apply Hnot|].
        split; [intros _; apply Hnot|]. intros _ _. inspect_config. }
      destruct (truthy_opt config_compression) eqn:Hcfg; simpl.
      * destruct (read_succeeds (_ ++ [Load_config]) _ _) eqn:Hok2; simpl;
          (eexists; split; [by rewrite <- !app_assoc|]);
          (split; [simpl; lia|]); (split; [apply Hnot|]);
          (split; [intros _; apply Hnot|]); intros _ _; inspect_config.
      * eexists. split; [by rewrite <- !app_assoc|].
        split; [simpl; lia|]. split; [apply Hnot|].
        split; [intros _; apply Hnot|]. intros _ _. inspect_config.
Qed.

Lemma inspect_read_attempts_witness :
  let is_file := fun _ : string => true in
  let read_succeeds := fun (_ : list event) (_ c : string) =>
                         String.eqb c "bz2" in
  let s := mkState "gzip" [] in
  let r := inspect_workdir_file is_file read_succeeds (Returns false)
             (Returns (Some "bz2")) "corpus/@text" None s in
  is_file "corpus/@text" = true
  /\ exists rest,
       trace r.2 = Read_and_print "gzip" false :: rest
       /\ length (reads rest) <= 1
       /\ head rest = Some Load_config
       /\ exists ok2, reads rest = [("bz2", ok2)] /\ r.1 = Returns ok2.
Proof.
  intros is_file read_succeeds s r. split; [reflexivity|].
  destruct (inspect_read_attempts is_file read_succeeds (Returns false)
              (Returns (Some "bz2")) "corpus/@text" None s eq_refl)
    as (rest & Htrace & Hlen & _ & _ & Hretry).
  destruct (Hretry eq_refl eq_refl) as (Hhead & _ & _ & Hloaded).
  destruct (Hloaded false (Some "bz2") eq_refl eq_refl) as [_ Hsecond].
  exists rest. split; [exact Htrace|]. split; [exact Hlen|].
  split; [exact Hhead|]. exact (Hsecond eq_refl eq_refl).
Defined.

(** C7 as stated fails on a pinned codec: with "bz2" pinned and
    [io.compression] at "gzip" on entry, the first read is made under
    "bz2", the operation having set it beforehand. It also fails when
    no codec can be determined because loading the configuration
    raises: the operation then returns nothing, the exception leaves
    it. *)
Lemma inspect_pinned_codec_first_read :
  let is_file := fun _ : string => true in
  let read_succeeds := fun (_ : list event) (_ _ : string) => false in
  let s := mkState "gzip" [] in
  (trace (inspect_workdir_file is_file read_succeeds (Returns false)
            (Returns None) "corpus/@text" (Some "bz2") s).2
   = [Read_and_print "bz2" false;
      Console_print (Failed_with_compression "bz2")]
   /\ ~ first_read_applies_no_codec is_file read_succeeds (Returns false)
          (Returns None) "corpus/@text" (Some "bz2") s)
  /\ (inspect_workdir_file is_file read_succeeds
        (Raises (Exception "config.yaml cannot be parsed")) (Returns None)
        "corpus/@text" None s).1
     <> Returns false.
Proof.
  intros is_file read_succeeds s. split; [split; [reflexivity|]|].
  - intros (ok & rest & H). vm_compute in H. discriminate H.
  - vm_compute. discriminate.
Qed.

(** * Further properties *)

(** ** Marker names *)

Lemma string_length_app (s t : string) :
  String.length (s +:+ t) = String.length s + String.length t.
Proof. induction s as [|c s IH]; [done|]. rewrite app_String. simpl. lia. Qed.

Lemma string_app_inj_r (s s' t : string) : s +:+ t = s' +:+ t -> s = s'.
Proof.
  revert s'. induction s as [|c s IH]; intros [|c' s'] H.
  - done.
  - apply (f_equal String.length) in H.
    rewrite app_empty_l, app_String in H. simpl in H.
    rewrite string_length_app in H. lia.
  - apply (f_equal String.length) in H.
    rewrite app_empty_l, app_String in H. simpl in H.
    rewrite string_length_app in H. lia.
  - rewrite !app_String in H. injection H as -> H. f_equal. by apply IH.
Qed.

Lemma install_marker_name_inj (s s' : string) :
  install_marker_name s = install_marker_name s' -> s = s'.
Proof.
  unfold install_marker_name. rewrite !app_String, !app_empty_l.
  intros H. injection H as H. by apply string_app_inj_r in H.
Qed.

Lemma uninstall_marker_name_inj (s s' : string) :
  uninstall_marker_name s = uninstall_marker_name s' -> s = s'.
Proof.
  unfold uninstall_marker_name. rewrite !app_String, !app_empty_l.
  intros H. injection H as H. by apply string_app_inj_r in H.
Qed.

Lemma install_uninstall_marker_names (s s' : string) :
  install_marker_name s <> uninstall_marker_name s'.
Proof.
  unfold install_marker_name, uninstall_marker_name.
  rewrite !app_String. discriminate.
Qed.

(** ** Marker sets *)

Lemma markers_write_twice (m um : string) (X : gset string) :
  ({[m]} ∪ (({[m]} ∪ (X ∖ {[um]})) ∖ {[um]}) : gset string)
  = {[m]} ∪ (X ∖ {[um]}).
Proof.
  apply set_eq. intros x.
  rewrite !elem_of_union, !elem_of_difference, !elem_of_union,
    !elem_of_difference, !elem_of_singleton.
  tauto.
Qed.

Lemma markers_flip (a b : string) (X : gset string) :
  a <> b ->
  ({[b]} ∪ (({[a]} ∪ (X ∖ {[b]})) ∖ {[a]}) : gset string)
  = {[b]} ∪ (X ∖ {[a]}).
Proof.
  intros Hab. apply set_eq. intros x.
  rewrite !elem_of_union, !elem_of_difference, !elem_of_union,
    !elem_of_difference, !elem_of_singleton.
  destruct (decide (x = a)), (decide (x = b)); intuition congruence.
Qed.

Lemma markers_other (m um k : string) (X : gset string) :
  k <> m -> k <> um ->
  k ∈ ({[m]} ∪ (X ∖ {[um]}) : gset string) <-> k ∈ X.
Proof.
  intros Hm Hum.
  rewrite elem_of_union, elem_of_difference, !elem_of_singleton.
  tauto.
Qed.

(** ** Outcomes of the installers *)

Section Outcomes.

Variable transport : list transport_call -> transport_call -> option exn.

Lemma install_ok (freq_list marker uninstall_marker : string)
    (host : option string) (target_dir : string) (w : workdir) :
  let r := install_sbx_freq_list transport freq_list marker uninstall_marker
             host target_dir w in
  r.1 = Ok tt ->
  markers r.2 = {[marker]} ∪ (markers w ∖ {[uninstall_marker]})
  /\ length (calls r.2) = S (length (calls w))
  /\ log r.2 = log w.
Proof.
  intros r Hok. subst r.
  destruct (decide (target_dir = "")) as [-> | Htd]; [discriminate Hok|].
  destruct (install_run transport freq_list marker uninstall_marker host
              target_dir w Htd) as (c & _ & Hrun).
  rewrite Hrun in *. destruct (transport (calls w) c); [discriminate Hok|].
  simpl. rewrite length_app. simpl. repeat split. lia.
Qed.

Lemma install_raise (freq_list marker uninstall_marker : string)
    (host : option string) (target_dir : string) (w : workdir) (e : exn) :
  let r := install_sbx_freq_list transport freq_list marker uninstall_marker
             host target_dir w in
  r.1 = Raise e -> markers r.2 = markers w /\ log r.2 = log w.
Proof.
  intros r Hraise. subst r.
  destruct (decide (target_dir = "")) as [-> | Htd]; [done|].
  destruct (install_run transport freq_list marker uninstall_marker host
              target_dir w Htd) as (c & _ & Hrun).
  rewrite Hrun in *. by destruct (transport (calls w) c).
Qed.

Lemma uninstall_ok (corpus_id marker install_marker : string)
    (host : option string) (remote_dir compression : string)
    (use_compression : bool) (w : workdir) :
  let r := uninstall_sbx_freq_list transport corpus_id marker install_marker
             host remote_dir compression use_compression w in
  r.1 = Ok tt ->
  markers r.2 = {[marker]} ∪ (markers w ∖ {[install_marker]})
  /\ length (calls r.2) = S (length (calls w)).
Proof.
  intros r Hok. subst r.
  destruct (decide (remote_dir = "")) as [-> | Hrd]; [discriminate Hok|].
  destruct (uninstall_run transport corpus_id marker install_marker host
              remote_dir compression use_compression w Hrd)
    as (c & l & _ & _ & Hrun).
  rewrite Hrun in *. destruct (transport (calls w) c); [discriminate Hok|].
  simpl. rewrite length_app. simpl. split; [done|lia].
Qed.

Lemma uninstall_raise (corpus_id marker install_marker : string)
    (host : option string) (remote_dir compression : string)
    (use_compression : bool) (w : workdir) (e : exn) :
  let r := uninstall_sbx_freq_list transport corpus_id marker install_marker
             host remote_dir compression use_compression w in
  r.1 = Raise e -> markers r.2 = markers w.
Proof.
  intros r Hraise. subst r.
  destruct (decide (remote_dir = "")) as [-> | Hrd]; [done|].
  destruct (uninstall_run transport corpus_id marker install_marker host
              remote_dir compression use_compression w Hrd)
    as (c & l & _ & _ & Hrun).
  rewrite Hrun in *. by destruct (transport (calls w) c).
Qed.

Lemma result_cases (r : result unit) : r = Ok tt \/ exists e, r = Raise e.
Proof. destruct r as [[]|e]; eauto. Qed.

End Outcomes.

(** X1: an install that succeeds twice in a row leaves the markers as
    they were after the first time, and the transport is called each
    time: the marker does not make the second call a no-op. *)
Theorem install_twice
    (transport : list transport_call -> transport_call -> option exn)
    (freq_list marker uninstall_marker : string) (host : option string)
    (target_dir : string) (w : workdir) :
  let r1 := install_sbx_freq_list transport freq_list marker
              uninstall_marker host target_dir w in
  let r2 := install_sbx_freq_list transport freq_list marker
              uninstall_marker host target_dir r1.2 in
  r1.1 = Ok tt -> r2.1 = Ok tt ->
  markers r2.2 = markers r1.2
  /\ length (calls r2.2) = 2 + length (calls w).
Proof.
  intros r1 r2 H1 H2.
  destruct (install_ok transport _ _ _ _ _ _ H1) as (Hm1 & Hc1 & _).
  destruct (install_ok transport _ _ _ _ _ _ H2) as (Hm2 & Hc2 & _).
  fold r1 in Hm1, Hc1, Hm2, Hc2. fold r2 in Hm2, Hc2.
  split; [|lia].
  rewrite Hm2, Hm1. apply markers_write_twice.
Qed.

Lemma install_twice_witness :
  let transport := fun (_ : list transport_call) (_ : transport_call) =>
                     @None exn in
  let w := mkWorkdir {[uninstall_marker_name "_fsv"]} [] [] in
  let r1 := installer transport (mkInst "_fsv" None "")
              "export/stats_X.csv" None "/var/www" w in
  let r2 := installer transport (mkInst "_fsv" None "")
              "export/stats_X.csv" None "/var/www" r1.2 in
  r1.1 = Ok tt /\ r2.1 = Ok tt
  /\ markers r2.2 = markers r1.2 /\ length (calls r2.2) = 2.
Proof.
  intros transport w r1 r2.
  split; [reflexivity|]. split; [reflexivity|].
  apply (install_twice transport "export/stats_X.csv"
           (install_marker_name "_fsv") (uninstall_marker_name "_fsv")
           None "/var/www" w); reflexivity.
Defined.

(** X2: for one variant, a successful uninstall after a successful
    install leaves the markers the working directory started with,
    except that the variant's uninstall-marker is present and its
    install-marker absent; a successful install after that brings back
    the markers of the first install. *)
Theorem install_uninstall_round_trip
    (transport : list transport_call -> transport_call -> option exn)
    (i : inst) (u : uninst) (freq_list corpus_id : string)
    (host : option string) (remote_dir compression : string)
    (w : workdir) :
  uninst_suffix u = inst_suffix i ->
  let r1 := installer transport i freq_list host remote_dir w in
  let r2 := uninstaller transport u corpus_id host remote_dir compression
              r1.2 in
  let r3 := installer transport i freq_list host remote_dir r2.2 in
  r1.1 = Ok tt -> r2.1 = Ok tt -> r3.1 = Ok tt ->
  markers r2.2
  = {[uninstall_marker_name (inst_suffix i)]}
    ∪ (markers w ∖ {[install_marker_name (inst_suffix i)]})
  /\ markers r3.2 = markers r1.2.
Proof.
  intros Hsuffix. unfold installer, uninstaller. cbv zeta. rewrite Hsuffix.
  intros H1 H2 H3.
  apply install_ok in H1 as (Hm1 & _).
  apply uninstall_ok in H2 as (Hm2 & _).
  apply install_ok in H3 as (Hm3 & _).
  rewrite Hm1 in Hm2.
  pose proof (marker_names_differ (inst_suffix i)) as Hne.
  rewrite markers_flip in Hm2 by exact Hne.
  split; [exact Hm2|].
  rewrite Hm3, Hm2, Hm1. apply markers_flip. congruence.
Qed.

Lemma install_uninstall_round_trip_witness :
  let transport := fun (_ : list transport_call) (_ : transport_call) =>
                     @None exn in
  let i := mkInst "_1800_compressed" (Some "_1800")
             ".[stats_export.compression]" in
  let u := mkUninst "_1800_compressed" true in
  let w := mkWorkdir {[install_marker_name ""]} [] [] in
  let r1 := installer transport i "export/stats_X.csv.gz" (Some "host")
              "/var/www" w in
  let r2 := uninstaller transport u "X" (Some "host") "/var/www" "gz" r1.2 in
  let r3 := installer transport i "export/stats_X.csv.gz" (Some "host")
              "/var/www" r2.2 in
  (r1.1 = Ok tt /\ r2.1 = Ok tt /\ r3.1 = Ok tt)
  /\ markers r3.2 = markers r1.2.
Proof.
  intros transport i u w r1 r2 r3.
  split; [by repeat split|].
  apply (install_uninstall_round_trip transport i u "export/stats_X.csv.gz"
           "X" (Some "host") "/var/www" "gz" w); reflexivity.
Defined.

(** Two marker names differ: by direction, or by suffix. *)
Ltac marker_names_apart :=
  let H := fresh "H" in
  intros H;
  first [ by apply install_uninstall_marker_names in H
        | by (symmetry in H; apply install_uninstall_marker_names in H)
        | apply install_marker_name_inj in H; congruence
        | apply uninstall_marker_name_inj in H; congruence ].

(** X3: installing or uninstalling one variant, whatever the outcome,
    leaves the install-marker and the uninstall-marker of every variant
    with another suffix as they were. *)
Theorem other_variants_untouched
    (transport : list transport_call -> transport_call -> option exn)
    (i : inst) (u : uninst) (other : string) :
  inst_suffix i <> other ->
  uninst_suffix u <> other ->
  (forall (freq_list : string) (host : option string) (target_dir : string)
          (w : workdir),
     let r := installer transport i freq_list host target_dir w in
     (install_marker_name other ∈ markers r.2
      <-> install_marker_name other ∈ markers w)
     /\ (uninstall_marker_name other ∈ markers r.2
         <-> uninstall_marker_name other ∈ markers w))
  /\ (forall (corpus_id : string) (host : option string)
             (remote_dir compression : string) (w : workdir),
        let r := uninstaller transport u corpus_id host remote_dir
                   compression w in
        (install_marker_name other ∈ markers r.2
         <-> install_marker_name other ∈ markers w)
        /\ (uninstall_marker_name other ∈ markers r.2
            <-> uninstall_marker_name other ∈ markers w)).
Proof.
  intros Hi Hu. split.
  - intros freq_list host target_dir w. unfold installer. cbv zeta.
    destruct (result_cases
                (install_sbx_freq_list transport freq_list
                   (install_marker_name (inst_suffix i))
                   (uninstall_marker_name (inst_suffix i))
                   host target_dir w).1) as [Hok | [e Hraise]].
    + apply install_ok in Hok as (-> & _).
      split; apply markers_other; marker_names_apart.
    + by apply install_raise in Hraise as (-> & _).
  - intros corpus_id host remote_dir compression w.
    unfold uninstaller. cbv zeta.
    destruct (result_cases
                (uninstall_sbx_freq_list transport corpus_id
                   (uninstall_marker_name (uninst_suffix u))
                   (install_marker_name (uninst_suffix u))
                   host remote_dir compression (uninst_compressed u) w).1)
      as [Hok | [e Hraise]].
    + apply uninstall_ok in Hok as (-> & _).
      split; apply markers_other; marker_names_apart.
    + by apply uninstall_raise in Hraise as ->.
Qed.

Lemma other_variants_untouched_witness :
  let transport := fun (_ : list transport_call) (_ : transport_call) =>
                     @None exn in
  let w := mkWorkdir {[install_marker_name "_date"]} [] [] in
  let r := installer transport (mkInst "" None "") "export/stats_X.csv"
             None "/var/www" w in
  "" <> "_date"
  /\ (install_marker_name "_date" ∈ markers r.2
      <-> install_marker_name "_date" ∈ markers w).
Proof.
  intros transport w r.
  assert (Hne : "" <> "_date") by discriminate.
  split; [exact Hne|].
  destruct (other_variants_untouched transport (mkInst "" None "")
              (mkUninst "" false) "_date" Hne Hne) as [Hinst _].
  apply (Hinst "export/stats_X.csv" None "/var/www" w).
Defined.

(** X4: an uninstall that raises, for whatever reason, leaves the
    markers as they were; it raises either the error about the missing
    remote directory, before any transport call, or the error of the one
    transport call it issued. *)
Theorem uninstall_failure_keeps_markers
    (transport : list transport_call -> transport_call -> option exn)
    (corpus_id marker install_marker : string) (host : option string)
    (remote_dir compression : string) (use_compression : bool)
    (w : workdir) (e : exn) :
  let r := uninstall_sbx_freq_list transport corpus_id marker install_marker
             host remote_dir compression use_compression w in
  r.1 = Raise e ->
  markers r.2 = markers w
  /\ ((e = SparvErrorMessage "Remote directory must be specified."
       /\ calls r.2 = calls w)
      \/ exists c, calls r.2 = calls w ++ [c]
                   /\ transport (calls w) c = Some e).
Proof.
  intros r Hraise. subst r.
  destruct (decide (remote_dir = "")) as [-> | Hrd].
  - simpl in *. split; [done|]. left. split; [congruence|done].
  - destruct (uninstall_run transport corpus_id marker install_marker host
                remote_dir compression use_compression w Hrd)
      as (c & l & _ & _ & Hrun).
    rewrite Hrun in *.
    destruct (transport (calls w) c) as [e'|] eqn:Hc; [|discriminate Hraise].
    simpl in *. split; [done|]. right. exists c. split; congruence.
Qed.

Lemma uninstall_failure_keeps_markers_witness :
  let transport := fun (_ : list transport_call) (_ : transport_call) =>
                     Some (OtherException "ssh failed") in
  let w := mkWorkdir {[install_marker_name "_simple"]} [] [] in
  let r := uninstaller transport (mkUninst "_simple" false) "X"
             (Some "host") "/var/www" "gz" w in
  r.1 = Raise (OtherException "ssh failed")
  /\ markers r.2 = markers w.
Proof.
  intros transport w r. split; [reflexivity|].
  apply (uninstall_failure_keeps_markers transport "X"
           (uninstall_marker_name "_simple") (install_marker_name "_simple")
           (Some "host") "/var/www" "gz" false w
           (OtherException "ssh failed")).
  reflexivity.
Defined.

(** ** Hosts and paths *)

Lemma rstrip_slash_snoc (s : string) :
  rstrip_slash (s +:+ "/") = rstrip_slash s.
Proof.
  induction s as [|c s IH]; [done|].
  rewrite app_String. simpl. by rewrite IH.
Qed.

Lemma startswith_svn_snoc (h : string) :
  startswith h "svn+" = true -> startswith (h +:+ "/") "svn+" = true.
Proof.
  intros [t ->]%startswith_svn.
  rewrite string_app_assoc. apply startswith_app.
Qed.

(** X5: a trailing slash on an [svn+] host changes nothing: the install
    and the uninstall run exactly as without it. *)
Theorem svn_host_trailing_slash
    (transport : list transport_call -> transport_call -> option exn)
    (h : string) :
  startswith h "svn+" = true ->
  (forall freq_list marker uninstall_marker target_dir w,
     install_sbx_freq_list transport freq_list marker uninstall_marker
       (Some (h +:+ "/")) target_dir w
     = install_sbx_freq_list transport freq_list marker uninstall_marker
         (Some h) target_dir w)
  /\ (forall corpus_id marker install_marker remote_dir compression
             use_compression w,
        uninstall_sbx_freq_list transport corpus_id marker install_marker
          (Some (h +:+ "/")) remote_dir compression use_compression w
        = uninstall_sbx_freq_list transport corpus_id marker install_marker
            (Some h) remote_dir compression use_compression w).
Proof.
  intros Hsvn.
  assert (is_svn_host (Some h) = true) as Hh
    by (apply is_svn_host_true; eauto).
  assert (is_svn_host (Some (h +:+ "/")) = true) as Hh'
    by (apply is_svn_host_true; eauto using startswith_svn_snoc).
  split.
  - intros. unfold install_sbx_freq_list. rewrite Hh, Hh'. simpl.
    by rewrite rstrip_slash_snoc.
  - intros. unfold uninstall_sbx_freq_list. rewrite Hh, Hh'. simpl.
    by rewrite rstrip_slash_snoc.
Qed.

Lemma svn_host_trailing_slash_witness :
  let transport := fun (_ : list transport_call) (_ : transport_call) =>
                     @None exn in
  let w := mkWorkdir ∅ [] [] in
  startswith "svn+https://x/repo" "svn+" = true
  /\ calls (install_sbx_freq_list transport "stats_X.csv" "m" "um"
              (Some ("svn+https://x/repo" +:+ "/")) "ignored" w).2
     = [Install_svn "stats_X.csv" "svn+https://x/repo/stats_X.csv" true].
Proof.
  intros transport w. split; [reflexivity|].
  rewrite (proj1 (svn_host_trailing_slash transport "svn+https://x/repo"
                    eq_refl)).
  reflexivity.
Defined.

Lemma split_slash_nonempty (s : string) : split_slash s <> [].
Proof.
  destruct s as [|c s]; [done|]. simpl.
  destruct (is_slash c); [done|]. by destruct (split_slash s).
Qed.

Lemma split_slash_app (a b : string) :
  split_slash (a +:+ "/" +:+ b) = split_slash a ++ split_slash b.
Proof.
  induction a as [|c a IH]; [done|].
  rewrite app_String. simpl. rewrite IH.
  destruct (is_slash c); [done|].
  pose proof (split_slash_nonempty a) as Hne.
  by destruct (split_slash a).
Qed.

(** The last component of a path that ends in a slash and a plain name. *)
Lemma name_of_dir_file (dir file : string) :
  contains_slash file = false -> file <> "" -> file <> "." ->
  name (path_of (dir +:+ "/" +:+ file)) = file.
Proof.
  intros Hplain Hne Hdot. unfold name, path_of. simpl.
  rewrite split_slash_app, List.filter_app.
  rewrite (split_slash_no_slash file) by done. simpl.
  assert (keep_part file = true) as ->.
  { unfold keep_part. apply truthy_true_iff in Hne. rewrite Hne. simpl.
    apply negb_true_iff, String.eqb_neq. exact Hdot. }
  apply last_snoc.
Qed.

(** X6: on an [svn+] host the artifact is committed under its base
    name: whatever directory the frequency list lies in, the URL passed
    to [install_svn] is the host, a slash, and the file name. *)
Theorem install_svn_uses_base_name
    (transport : list transport_call -> transport_call -> option exn)
    (dir file marker uninstall_marker h target_dir : string) (w : workdir) :
  target_dir <> "" ->
  startswith h "svn+" = true ->
  contains_slash file = false -> file <> "" -> file <> "." ->
  let freq_list := dir +:+ "/" +:+ file in
  let r := install_sbx_freq_list transport freq_list marker uninstall_marker
             (Some h) target_dir w in
  calls r.2
  = calls w ++ [Install_svn freq_list (rstrip_slash h +:+ "/" +:+ file) true].
Proof.
  intros Htd Hsvn Hplain Hne Hdot freq_list r. subst r.
  destruct (install_svn_branch transport freq_list marker uninstall_marker
              target_dir w Htd h Hsvn) as [Hcalls _].
  rewrite Hcalls. unfold freq_list.
  by rewrite name_of_dir_file.
Qed.

Lemma install_svn_uses_base_name_witness :
  let transport := fun (_ : list transport_call) (_ : transport_call) =>
                     @None exn in
  let w := mkWorkdir ∅ [] [] in
  let freq_list := "export/stats_export.frequency_list_sbx" +:+ "/"
                   +:+ "stats_X.csv" in
  calls (install_sbx_freq_list transport freq_list "m" "um"
           (Some "svn+https://x/repo") "ignored" w).2
  = [Install_svn freq_list "svn+https://x/repo/stats_X.csv" true].
Proof.
  intros transport w freq_list.
  apply (install_svn_uses_base_name transport
           "export/stats_export.frequency_list_sbx" "stats_X.csv" "m" "um"
           "svn+https://x/repo" "ignored" w);
    [discriminate | reflexivity | reflexivity | discriminate | discriminate].
Defined.

(** ** conditional_best_complemgram, continued *)

Lemma truthy_true_iff_neg (s : string) : truthy s = false <-> s = "".
Proof. destruct s; simpl; split; intros; congruence. Qed.

Lemma suppress_idem (c sv : string) :
  suppress (suppress c sv) sv = suppress c sv.
Proof. unfold suppress. by destruct (_ && _). Qed.

Lemma suppress_nonempty (c sv : string) :
  suppress c sv <> "" -> (sv = "" \/ sv = "|") /\ suppress c sv = c.
Proof.
  unfold suppress. destruct (truthy sv) eqn:Ht; simpl.
  - destruct (String.eqb sv "|") eqn:Hbar; simpl; [|done].
    apply String.eqb_eq in Hbar. auto.
  - apply truthy_true_iff_neg in Ht. auto.
Qed.

(** X7: a token never keeps both: wherever the output holds a non-empty
    value, that value is the token's complemgram and the token's sense
    is empty or the sentinel "|". *)
Theorem conditional_keeps_only_senseless
    (complemgrams sense : list string) (i : nat) (v : string) :
  conditional_best_complemgram complemgrams sense !! i = Some v ->
  v <> "" ->
  complemgrams !! i = Some v
  /\ (sense !! i = Some "" \/ sense !! i = Some "|").
Proof.
  rewrite conditional_lookup.
  destruct (complemgrams !! i) as [c|]; [|done].
  destruct (sense !! i) as [sv|]; [|done].
  intros [= <-] Hne.
  destruct (suppress_nonempty c sv Hne) as [[-> | ->] ->]; auto.
Qed.

Lemma conditional_keeps_only_senseless_witness :
  let complemgrams := ["a+b"; "c+d"; "e"] in
  let sense := ["|"; "sense..1"; ""] in
  conditional_best_complemgram complemgrams sense !! 0 = Some "a+b"
  /\ complemgrams !! 0 = Some "a+b"
  /\ (sense !! 0 = Some "" \/ sense !! 0 = Some "|").
Proof.
  intros complemgrams sense. split; [reflexivity|].
  apply (conditional_keeps_only_senseless complemgrams sense 0 "a+b");
    [reflexivity | discriminate].
Defined.

(** X8: on streams of the same length, when no token has a sense (every
    sense value is empty or the sentinel) the output is the complemgram
    stream itself, and when every token has one the output is all empty
    strings. *)
Theorem conditional_all_or_nothing (complemgrams sense : list string) :
  length complemgrams = length sense ->
  (Forall (fun sv => sv = "" \/ sv = "|") sense ->
   conditional_best_complemgram complemgrams sense = complemgrams)
  /\ (Forall (fun sv => sv <> "" /\ sv <> "|") sense ->
      conditional_best_complemgram complemgrams sense
      = replicate (length complemgrams) "").
Proof.
  intros Hlen. split; intros Hall; apply list_eq; intros i;
    rewrite conditional_lookup.
  - destruct (complemgrams !! i) as [c|] eqn:Hc; [|done].
    destruct (sense !! i) as [sv|] eqn:Hsv.
    + rewrite Forall_lookup in Hall. specialize (Hall i sv Hsv).
      f_equal. by apply suppress_cases.
    + apply lookup_ge_None in Hsv. apply lookup_lt_Some in Hc. lia.
  - destruct (complemgrams !! i) as [c|] eqn:Hc.
    + destruct (sense !! i) as [sv|] eqn:Hsv.
      * rewrite Forall_lookup in Hall. destruct (Hall i sv Hsv) as [H1 H2].
        apply lookup_lt_Some in Hc.
        rewrite lookup_replicate_2 by exact Hc.
        f_equal. by apply suppress_cases.
      * apply lookup_ge_None in Hsv. apply lookup_lt_Some in Hc. lia.
    + apply lookup_ge_None in Hc. symmetry. apply lookup_ge_None.
      by rewrite length_replicate.
Qed.

Lemma conditional_all_or_nothing_witness :
  length ["a+b"; "c+d"] = length ["|"; ""]
  /\ conditional_best_complemgram ["a+b"; "c+d"] ["|"; ""] = ["a+b"; "c+d"].
Proof.
  split; [reflexivity|].
  apply (conditional_all_or_nothing ["a+b"; "c+d"] ["|"; ""] eq_refl).
  constructor; [by right|]. constructor; [by left|]. constructor.
Defined.

(** X9: running the annotator again on its own output, against the same
    sense stream, changes nothing. *)
Theorem conditional_idempotent (complemgrams sense : list string) :
  conditional_best_complemgram
    (conditional_best_complemgram complemgrams sense) sense
  = conditional_best_complemgram complemgrams sense.
Proof.
  apply list_eq. intros i. rewrite !conditional_lookup.
  destruct (complemgrams !! i) as [c|]; [|done].
  destruct (sense !! i) as [sv|]; [|done].
  by rewrite suppress_idem.
Qed.

(** ** inspect_workdir_file, continued *)

(** Splits an inspection into its paths. *)
Ltac inspect_paths is_file read_succeeds load_config config_get
    compression filename :=
  unfold inspect_workdir_file, read_and_print;
  destruct (is_file filename); simpl;
  [ destruct (truthy_opt compression); simpl;
    [ destruct (read_succeeds _ _ _); simpl
    | destruct (read_succeeds _ _ _); simpl;
      [ | destruct load_config as [[|]|]; simpl;
          [ destruct config_get as [?|]; simpl
          | destruct config_get as [config_compression|]; simpl;
            [ destruct (truthy_opt config_compression); simpl;
              [ destruct (read_succeeds (_ ++ [Load_config]) _ _); simpl
              | ]
            | ]
          | ] ] ]
  | ].

(** X10: an inspection that returns true has printed no failure message;
    one that returns false has printed exactly one, as its last step,
    and none of its reads succeeded. One that raises has printed none,
    and none of its reads succeeded either. *)
Theorem inspect_result_and_console
    (is_file : string -> bool)
    (read_succeeds : list event -> string -> string -> bool)
    (load_config : outcome bool) (config_get : outcome (option string))
    (filename : string) (compression : option string) (s : state) :
  let r := inspect_workdir_file is_file read_succeeds load_config
             config_get filename compression s in
  exists new,
    trace r.2 = trace s ++ new
    /\ match r.1 with
       | Returns true => console new = []
       | Returns false =>
           (exists m, console new = [m]
                      /\ last new = Some (Console_print m))
           /\ Forall (fun p => p.2 = false) (reads new)
       | Raises _ =>
           console new = [] /\ Forall (fun p => p.2 = false) (reads new)
       end.
Proof.
  intros r. subst r.
  inspect_paths is_file read_succeeds load_config config_get
    compression filename;
    (eexists; split; [by rewrite <- ?app_assoc|]); simpl;
    try reflexivity;
    (split; [first [reflexivity | eexists; split; reflexivity]
            | repeat constructor]).
Qed.

(** X11: on an existing file [io.compression] is left at the codec of
    the last read attempted: a pinned or configured codec stays set
    after the call, also when the inspection fails or raises. When the
    inspection returns, its result is the outcome of that last read;
    when it raises, that read had failed. *)
Theorem inspect_leaves_last_codec
    (is_file : string -> bool)
    (read_succeeds : list event -> string -> string -> bool)
    (load_config : outcome bool) (config_get : outcome (option string))
    (filename : string) (compression : option string) (s : state) :
  is_file filename = true ->
  let r := inspect_workdir_file is_file read_succeeds load_config
             config_get filename compression s in
  exists new c ok,
    trace r.2 = trace s ++ new
    /\ last (reads new) = Some (c, ok)
    /\ io_compression r.2 = c
    /\ match r.1 with
       | Returns b => b = ok
       | Raises _ => ok = false
       end.
Proof.
  intros Hfile r. subst r. revert Hfile.
  inspect_paths is_file read_succeeds load_config config_get
    compression filename;
    intros Hfile; try discriminate Hfile;
    (do 3 eexists; split; [by rewrite <- ?app_assoc|]); simpl;
    (split; [reflexivity|]); split; reflexivity.
Qed.

Lemma inspect_leaves_last_codec_witness :
  let is_file := fun _ : string => true in
  let read_succeeds := fun (_ : list event) (_ _ : string) => false in
  let s := mkState "gzip" [] in
  let r := inspect_workdir_file is_file read_succeeds (Returns false)
             (Returns None) "corpus/@text" (Some "bz2") s in
  is_file "corpus/@text" = true
  /\ r.1 = Returns false
  /\ io_compression r.2 = "bz2"
  /\ exists new c ok, trace r.2 = trace s ++ new
                      /\ last (reads new) = Some (c, ok)
                      /\ io_compression r.2 = c
                      /\ match r.1 with
                         | Returns b => b = ok
                         | Raises _ => ok = false
                         end.
Proof.
  intros is_file read_succeeds s r.
  split; [reflexivity|]. split; [reflexivity|]. split; [reflexivity|].
  apply (inspect_leaves_last_codec is_file read_succeeds (Returns false)
           (Returns None) "corpus/@text" (Some "bz2") s eq_refl).
Defined.

(** An empty compression argument counts as none given: the inspection
    runs as if the codec had not been pinned. *)
Remark inspect_empty_compression_unpinned
    (is_file : string -> bool)
    (read_succeeds : list event -> string -> string -> bool)
    (load_config : outcome bool) (config_get : outcome (option string))
    (filename : string) (s : state) :
  inspect_workdir_file is_file read_succeeds load_config config_get
    filename (Some "") s
  = inspect_workdir_file is_file read_succeeds load_config config_get
      filename None s.
Proof. reflexivity. Qed.

(** ** The exporters and the installers *)

(** Membership in a list of closed terms, by evaluation. *)
Ltac elem_by_compute :=
  apply list_elem_of_In; vm_compute; repeat (first [by left | right]).

Section Exporters.
Import SbxExporters.

(** X12: every installer variant takes a file that some exporter of the
    module writes, and every compressing exporter writes its input's
    name followed by the compression extension, that input being
    written by an exporter too. *)
Theorem installer_inputs_are_exported :
  Forall (fun i => freq_list_template i ∈ exported) installers
  /\ Forall (fun e => compress_chain_ok e = true) exporters.
Proof.
  split.
  - unfold installers. repeat constructor; elem_by_compute.
  - unfold exporters. repeat constructor.
Qed.



End Exporters.

(** ** logger.py *)

Section LoggerClass.
Import Logger.

(** Registering the three level names a second time changes nothing. *)
Lemma add_level_names_twice (l : logging) :
  let add l := addLevelName FINAL "FINAL"
                 (addLevelName PROGRESS "PROGRESS"
                    (addLevelName INTERNAL "INTERNAL" l)) in
  add (add l) = add l.
Proof.
  intros add. subst add. unfold addLevelName. simpl. f_equal.
  - apply map_eq. intros k. rewrite !lookup_insert.
    repeat case_decide; congruence.
  - apply map_eq. intros k. rewrite !lookup_insert.
    repeat case_decide; congruence.
Qed.

Lemma ensure_logger_class_class (l : logging) :
  loggerClass (ensure_logger_class l)
  = if issubclass_SparvLogger (loggerClass l) then loggerClass l
    else SparvLogger_class.
Proof.
  unfold ensure_logger_class.
  by destruct (issubclass_SparvLogger (loggerClass l)).
Qed.

(** X14: [ensure_logger_class] is idempotent: a second call leaves the
    logger class and both level-name tables as the first call left
    them. *)
Theorem ensure_logger_class_idempotent (l : logging) :
  ensure_logger_class (ensure_logger_class l) = ensure_logger_class l.
Proof.
  assert (Hsub : issubclass_SparvLogger (loggerClass (ensure_logger_class l))
                 = true).
  { rewrite ensure_logger_class_class.
    by destruct (issubclass_SparvLogger (loggerClass l)) eqn:E. }
  unfold ensure_logger_class at 1. rewrite Hsub. simpl.
  unfold ensure_logger_class. apply add_level_names_twice.
Qed.

(** X15: after [ensure_logger_class] the logger class is [SparvLogger]
    or derived from it: a class derived from [SparvLogger] that was
    already installed is kept, any other class is replaced by
    [SparvLogger] itself. *)
Theorem ensure_logger_class_installs (l : logging) :
  let l' := ensure_logger_class l in
  issubclass_SparvLogger (loggerClass l') = true
  /\ (issubclass_SparvLogger (loggerClass l) = true ->
      loggerClass l' = loggerClass l)
  /\ (issubclass_SparvLogger (loggerClass l) = false ->
      loggerClass l' = SparvLogger_class).
Proof.
  intros l'. subst l'. rewrite ensure_logger_class_class.
  destruct (issubclass_SparvLogger (loggerClass l)) eqn:E; by repeat split.
Qed.

Lemma ensure_logger_class_installs_witness :
  let l := mkLogging (Derived SparvLogger_class "TestLogger") ∅ ∅ in
  issubclass_SparvLogger (loggerClass l) = true
  /\ loggerClass (ensure_logger_class l)
     = Derived SparvLogger_class "TestLogger".
Proof.
  intros l. split; [reflexivity|].
  exact (proj1 (proj2 (ensure_logger_class_installs l)) eq_refl).
Defined.

(** X16: after [ensure_logger_class] the levels 100, 90 and 80 are named
    INTERNAL, PROGRESS and FINAL and these names map back to them; the
    name of every other level and the level of every other name are as
    before. *)
Theorem ensure_logger_class_level_names (l : logging) :
  let l' := ensure_logger_class l in
  (levelToName l' !! 100%Z = Some "INTERNAL"
   /\ levelToName l' !! 90%Z = Some "PROGRESS"
   /\ levelToName l' !! 80%Z = Some "FINAL")
  /\ (nameToLevel l' !! "INTERNAL" = Some 100%Z
      /\ nameToLevel l' !! "PROGRESS" = Some 90%Z
      /\ nameToLevel l' !! "FINAL" = Some 80%Z)
  /\ (forall level : Z,
        level <> 100%Z -> level <> 90%Z -> level <> 80%Z ->
        levelToName l' !! level = levelToName l !! level)
  /\ (forall levelName : string,
        levelName <> "INTERNAL" -> levelName <> "PROGRESS" ->
        levelName <> "FINAL" ->
        nameToLevel l' !! levelName = nameToLevel l !! levelName).
Proof.
  intros l'. subst l'. unfold ensure_logger_class, addLevelName,
    INTERNAL, PROGRESS, FINAL.
  destruct (negb (issubclass_SparvLogger (loggerClass l))); simpl;
    (split; [|split; [|split]]);
    try (repeat split; rewrite !lookup_insert;
         repeat case_decide; congruence);
    intros k H1 H2 H3; rewrite !lookup_insert;
    repeat case_decide; congruence.
Qed.

Lemma ensure_logger_class_level_names_witness :
  let l := mkLogging Logger_class {[50%Z := "CRITICAL"]}
             {["CRITICAL" := 50%Z]} in
  levelToName (ensure_logger_class l) !! 50%Z = Some "CRITICAL".
Proof.
  intros l.
  destruct (ensure_logger_class_level_names l) as (_ & _ & Hother & _).
  rewrite Hother by discriminate. reflexivity.
Defined.

(** A logger enabled for INTERNAL records one call per method call, in
    order; a logger that is not records nothing. *)
Example progress_then_export_dirs :
  export_dirs (fun _ => true) ["export"]
    (progress (fun _ => true)
       (mkCurrentProgress (Some "a.xml") (Some "stats_export:sbx_freq_list"))
       None (Some 1%Z) None [])
  = [ mkLogCall 100 "progress"
        (Progress_extra None (Some 1%Z) None
           (Some "stats_export:sbx_freq_list") (Some "a.xml"));
      mkLogCall 100 "export_dirs" (Export_dirs_extra ["export"]) ]
  /\ export_dirs (fun _ => false) ["export"]
       (progress (fun _ => false)
          (mkCurrentProgress None None) None None None [])
     = [].
Proof. split; reflexivity. Qed.

End LoggerClass.
